(** * Orchids website cloner: the client page and the pipeline it talks to

    The development follows [frontend/src/app/page.tsx]: the React state of
    the [App] component, its two asynchronous handlers
    ([checkBackendHealth], [handleSubmit]), and the JSX it returns.  The
    browser pieces the page relies on (JSON values, [fetch], the iframe
    [sandbox] attribute, React's effect scheduling) are modelled just far
    enough to run the handlers on concrete inputs. *)

From Stdlib Require Import String Ascii List Bool Arith Lia.
Import ListNotations.
Open Scope string_scope.
Set Warnings "-register-all".

(** ** JavaScript values and completions *)

Module Js.

(** Values that can flow through the page: what [response.json()] may
    produce, plus [undefined].  A number is held by its ECMAScript
    [Number::toString] rendering, which is all the page ever observes of
    it (truthiness and string conversion); JSON cannot produce [NaN]. *)
Inductive JsVal : Type :=
| JUndefined
| JNull
| JBool (b : bool)
| JNum (repr : string)
| JStr (s : string)
| JArr (items : list JsVal)
| JObj (props : list (string * JsVal)).

(** ToBoolean. *)
Definition truthy (v : JsVal) : bool :=
  match v with
  | JUndefined | JNull => false
  | JBool b => b
  | JNum r => negb (r =? "0")
  | JStr s => negb (s =? "")
  | JArr _ | JObj _ => true
  end.

(** [a || b]. *)
Definition js_or (a b : JsVal) : JsVal := if truthy a then a else b.

(** [a || b] when [a] is known to be a string. *)
Definition str_or (a b : string) : string := if a =? "" then b else a.

(** [a === b] against a string literal [b]. *)
Definition strict_eq_str (a : JsVal) (b : string) : bool :=
  match a with
  | JStr s => s =? b
  | _ => false
  end.

(** ToString.  Arrays join their elements with a comma, [null] and
    [undefined] elements printing as nothing; plain objects print as
    [[object Object]]. *)
Fixpoint to_string (v : JsVal) : string :=
  match v with
  | JUndefined => "undefined"
  | JNull => "null"
  | JBool true => "true"
  | JBool false => "false"
  | JNum r => r
  | JStr s => s
  | JArr items =>
      (fix join (l : list JsVal) : string :=
         match l with
         | [] => ""
         | x :: rest =>
             (match x with
              | JUndefined | JNull => ""
              | _ => to_string x
              end)
             ++ (match rest with
                 | [] => ""
                 | _ :: _ => "," ++ join rest
                 end)
         end) items
  | JObj _ => "[object Object]"
  end.

(** A thrown [Error]; the page only ever reads its [message]. *)
Record Exn : Type := mkExn { message : string }.

(** [new Error(v)]: the message is [ToString v] unless [v] is
    [undefined]. *)
Definition new_Error (v : JsVal) : Exn :=
  match v with
  | JUndefined => mkExn ""
  | _ => mkExn (to_string v)
  end.

(** Result of running a block that may throw. *)
Inductive Completion (A : Type) : Type :=
| Normal (a : A)
| Throw (e : Exn).
Arguments Normal {A} a.
Arguments Throw {A} e.

Definition bind {A B : Type} (c : Completion A) (k : A -> Completion B)
  : Completion B :=
  match c with
  | Normal a => k a
  | Throw e => Throw e
  end.

(** Own properties of a parsed object, each key listed once. *)
Fixpoint lookup (key : string) (props : list (string * JsVal))
  : option JsVal :=
  match props with
  | [] => None
  | (k, v) :: rest => if k =? key then Some v else lookup key rest
  end.

(** The engine's message for a property read on [null] / [undefined]. *)
Definition nullish_read_message (v : JsVal) (key : string) : string :=
  "Cannot read properties of " ++ to_string v
    ++ " (reading '" ++ key ++ "')".

(** [v.key] for the keys the page reads ([status], [detail],
    [cloned_html]); none of them is defined on a prototype, so a
    non-object or an object without the key gives [undefined], and
    [null] / [undefined] throw a TypeError. *)
Definition get (v : JsVal) (key : string) : Completion JsVal :=
  match v with
  | JUndefined | JNull => Throw (mkExn (nullish_read_message v key))
  | JObj props =>
      match lookup key props with
      | Some x => Normal x
      | None => Normal JUndefined
      end
  | _ => Normal JUndefined
  end.

End Js.
Export Js.

Notation "x <- c ;; k" := (bind c (fun x => k))
  (at level 61, c at next level, right associativity).

(** ** fetch *)

Module Fetch.

(** What [response.json()] does with the body. *)
Inductive Body : Type :=
| Json (v : JsVal)
| NotJson (parse_error : string).

Record Response : Type := mkResponse { status : nat; body : Body }.

(** [response.ok]: the status is in the range 200-299. *)
Definition ok (r : Response) : bool :=
  ((200 <=? status r) && (status r <=? 299))%nat.

Definition json (r : Response) : Completion JsVal :=
  match body r with
  | Json v => Normal v
  | NotJson m => Throw (mkExn m)
  end.

(** How the promise returned by [fetch] settles. *)
Inductive FetchResult : Type :=
| Rejected (network_error : string)
| Resolved (r : Response).

Definition await (f : FetchResult) : Completion Response :=
  match f with
  | Rejected m => Throw (mkExn m)
  | Resolved r => Normal r
  end.

(** The arguments of a [fetch] call.  [payload] is the value handed to
    [JSON.stringify] for the request body. *)
Record Request : Type := mkRequest {
  method : string;
  target : string;
  headers : list (string * string);
  payload : option JsVal
}.

End Fetch.
Export Fetch.

(** ** The App component *)

Module App.

(** The five [useState] cells. *)
Record State : Type := mkState {
  url : string;
  clonedHtml : JsVal;
  loading : bool;
  error : option string;
  backendStatus : JsVal
}.

Definition initial : State :=
  {| url := "";
     clonedHtml := JNull;
     loading := false;
     error := None;
     backendStatus := JStr "checking..." |}.

Definition setUrl (v : string) (s : State) : State :=
  {| url := v; clonedHtml := clonedHtml s; loading := loading s;
     error := error s; backendStatus := backendStatus s |}.
Definition setClonedHtml (v : JsVal) (s : State) : State :=
  {| url := url s; clonedHtml := v; loading := loading s;
     error := error s; backendStatus := backendStatus s |}.
Definition setLoading (v : bool) (s : State) : State :=
  {| url := url s; clonedHtml := clonedHtml s; loading := v;
     error := error s; backendStatus := backendStatus s |}.
Definition setError (v : option string) (s : State) : State :=
  {| url := url s; clonedHtml := clonedHtml s; loading := loading s;
     error := v; backendStatus := backendStatus s |}.
Definition setBackendStatus (v : JsVal) (s : State) : State :=
  {| url := url s; clonedHtml := clonedHtml s; loading := loading s;
     error := error s; backendStatus := v |}.

(** *** checkBackendHealth *)

Definition health_request : Request :=
  {| method := "GET"; target := "http://localhost:8000/health";
     headers := []; payload := None |}.

(** The [try] block: the value it passes to [setBackendStatus]. *)
Definition checkBackendHealth_try (f : FetchResult) : Completion JsVal :=
  response <- await f ;;
  if ok response then
    data <- json response ;;
    st <- get data "status" ;;
    Normal st
  else
    Normal (JStr "unhealthy").

(** The state once the check has settled. *)
Definition checkBackendHealth (f : FetchResult) (s : State) : State :=
  match checkBackendHealth_try f with
  | Normal v => setBackendStatus v s
  | Throw _ => setBackendStatus (JStr "unreachable") s
  end.

(** *** handleSubmit *)

(** The [fetch] call of [handleSubmit]; [{ url }] captures the [url]
    cell of the render the handler belongs to. *)
Definition clone_request (s : State) : Request :=
  {| method := "POST"; target := "http://localhost:8000/clone";
     headers := [("Content-Type", "application/json")];
     payload := Some (JObj [("url", JStr (url s))]) |}.

(** Up to the [await fetch]: three state updates, then the request. *)
Definition handleSubmit_begin (s : State) : State * Request :=
  (setClonedHtml JNull (setError None (setLoading true s)),
   clone_request s).

(** The rest of the [try] block: the value it passes to
    [setClonedHtml], or what it throws. *)
Definition handleSubmit_try (f : FetchResult) : Completion JsVal :=
  response <- await f ;;
  if negb (ok response) then
    errorData <- json response ;;
    detail <- get errorData "detail" ;;
    Throw (new_Error (js_or detail (JStr "Failed to clone website")))
  else
    data <- json response ;;
    cloned_html <- get data "cloned_html" ;;
    Normal cloned_html.

(** [catch] and [finally], once the request has settled. *)
Definition handleSubmit_settle (f : FetchResult) (s : State) : State :=
  setLoading false
    (match handleSubmit_try f with
     | Normal v => setClonedHtml v s
     | Throw err =>
         setError
           (Some (str_or (message err)
                         "An unexpected error occurred during cloning."))
           s
     end).

(** A whole submission with nothing else happening in between. *)
Definition handleSubmit (f : FetchResult) (s : State) : State :=
  handleSubmit_settle f (fst (handleSubmit_begin s)).

(** *** The returned JSX *)

Record Preview : Type := mkPreview {
  srcDoc : JsVal;
  title : string;
  sandbox : string;
  lazy : string;
  inspection : JsVal
}.

Record View : Type := mkView {
  status_class : string;
  status_text : JsVal;
  input_value : string;
  input_disabled : bool;
  button_disabled : bool;
  spinner : bool;
  error_message : option string;
  preview : option Preview
}.

Definition render (s : State) : View :=
  {| status_class :=
       if strict_eq_str (backendStatus s) "healthy" then "status-healthy"
       else if strict_eq_str (backendStatus s) "unhealthy"
            then "status-unhealthy"
            else "status-unreachable";
     status_text := backendStatus s;
     input_value := url s;
     input_disabled :=
       loading s || negb (strict_eq_str (backendStatus s) "healthy");
     button_disabled :=
       loading s || negb (strict_eq_str (backendStatus s) "healthy");
     spinner := loading s;
     error_message :=
       match error s with
       | Some e => if e =? "" then None else Some e
       | None => None
       end;
     preview :=
       if truthy (clonedHtml s) then
         Some {| srcDoc := clonedHtml s;
                 title := "Cloned Website Preview";
                 sandbox := "allow-scripts allow-same-origin allow-popups allow-forms allow-modals";
                 lazy := "lazy";
                 inspection := clonedHtml s |}
       else None |}.

End App.
Export App.

(** ** The iframe sandbox attribute *)

Module Sandbox.

(** The restrictions a [sandbox] attribute places on the embedded
    document.  Each one is lifted by its own [allow-...] keyword. *)
Inductive Permission : Type :=
| Scripts
| SameOrigin
| Popups
| Forms
| Modals
| TopNavigation
| PointerLock
| Downloads.

Definition allow_token (p : Permission) : string :=
  match p with
  | Scripts => "allow-scripts"
  | SameOrigin => "allow-same-origin"
  | Popups => "allow-popups"
  | Forms => "allow-forms"
  | Modals => "allow-modals"
  | TopNavigation => "allow-top-navigation"
  | PointerLock => "allow-pointer-lock"
  | Downloads => "allow-downloads"
  end.

(** ASCII whitespace: space, tab, line feed, form feed, carriage
    return. *)
Definition is_space (c : ascii) : bool :=
  existsb (Ascii.eqb c) [" "; "009"; "010"; "012"; "013"]%char.

(** Split an attribute value on ASCII whitespace; [cur] is the token
    being read. *)
Fixpoint split_spaces (cur : string) (s : string) : list string :=
  match s with
  | EmptyString => if cur =? "" then [] else [cur]
  | String c rest =>
      if is_space c then
        (if cur =? "" then split_spaces "" rest
         else cur :: split_spaces "" rest)
      else split_spaces (cur ++ String c EmptyString) rest
  end.

Definition tokens (attr : string) : list string := split_spaces "" attr.

(** With a [sandbox] attribute present, a permission is withheld from
    the framed document exactly when its keyword is not listed (keywords
    are compared as written; the page writes them in lower case). *)
Definition restricts (attr : string) (p : Permission) : bool :=
  negb (existsb (String.eqb (allow_token p)) (tokens attr)).

End Sandbox.
Export Sandbox.

(** ** The mounted component and the events that reach it *)

Module Lifecycle.

(** [Object.is] on dependency values; arrays and objects are fresh
    references on every render. *)
Definition same_value (a b : JsVal) : bool :=
  match a, b with
  | JUndefined, JUndefined => true
  | JNull, JNull => true
  | JBool x, JBool y => Bool.eqb x y
  | JNum x, JNum y => x =? y
  | JStr x, JStr y => x =? y
  | _, _ => false
  end.

Fixpoint deps_changed (prev next : list JsVal) : bool :=
  match prev, next with
  | p :: ps, n :: ns => negb (same_value p n) || deps_changed ps ns
  | _, _ => false
  end.

(** [useEffect(fn, deps)]: [fn] runs after the first commit, and after
    a later commit when a dependency differs from the previous one. *)
Definition effect_due (first_commit : bool) (prev next : list JsVal)
  : bool :=
  first_commit || deps_changed prev next.

(** The dependency array of the health effect, written [[]] in the
    source: the same empty array on every render. *)
Definition health_deps (s : State) : list JsVal := [].

Record World : Type := mkWorld {
  app : State;
  commits : nat;
  last_deps : list JsVal;
  health_inflight : nat;
  clone_inflight : nat;
  sent : list Request
}.

(** React commits a render of the current state and runs the effects
    that are due; the health effect calls [checkBackendHealth], which
    issues its [fetch] at once. *)
Definition commit (w : World) : World :=
  let due := effect_due (commits w =? 0)%nat (last_deps w)
                        (health_deps (app w)) in
  {| app := app w;
     commits := S (commits w);
     last_deps := health_deps (app w);
     health_inflight :=
       if due then S (health_inflight w) else health_inflight w;
     clone_inflight := clone_inflight w;
     sent := if due then health_request :: sent w else sent w |}.

Definition before_mount : World :=
  {| app := initial; commits := O; last_deps := [];
     health_inflight := O; clone_inflight := O; sent := [] |}.

(** The page right after its first commit. *)
Definition mount : World := commit before_mount.

Inductive Event : Type :=
| Rerender
| HealthSettles (f : FetchResult)
| Typed (v : string)
| Submit
| CloneSettles (f : FetchResult).

Definition with_app (s : State) (w : World) : World :=
  {| app := s; commits := commits w; last_deps := last_deps w;
     health_inflight := health_inflight w;
     clone_inflight := clone_inflight w; sent := sent w |}.

(** One event, followed by the commit it causes.  [None] when the event
    cannot happen: a promise settles only if its request is in flight,
    and the browser neither edits a disabled input nor submits a form
    whose submit button is disabled.  (The browser also refuses to
    submit while the [required] / [type="url"] constraints fail; the
    model lets those submissions through, so it has more runs than the
    page.) *)
Definition step (ev : Event) (w : World) : option World :=
  match ev with
  | Rerender => Some (commit w)
  | HealthSettles f =>
      match health_inflight w with
      | O => None
      | S n =>
          Some (commit
                  {| app := checkBackendHealth f (app w);
                     commits := commits w; last_deps := last_deps w;
                     health_inflight := n;
                     clone_inflight := clone_inflight w;
                     sent := sent w |})
      end
  | Typed v =>
      if input_disabled (render (app w)) then None
      else Some (commit (with_app (setUrl v (app w)) w))
  | Submit =>
      if button_disabled (render (app w)) then None
      else
        let (s', rq) := handleSubmit_begin (app w) in
        Some (commit
                {| app := s';
                   commits := commits w; last_deps := last_deps w;
                   health_inflight := health_inflight w;
                   clone_inflight := S (clone_inflight w);
                   sent := rq :: sent w |})
  | CloneSettles f =>
      match clone_inflight w with
      | O => None
      | S n =>
          Some (commit
                  {| app := handleSubmit_settle f (app w);
                     commits := commits w; last_deps := last_deps w;
                     health_inflight := health_inflight w;
                     clone_inflight := n;
                     sent := sent w |})
      end
  end.

Fixpoint run (evs : list Event) (w : World) : option World :=
  match evs with
  | [] => Some w
  | ev :: rest =>
      match step ev w with
      | Some w' => run rest w'
      | None => None
      end
  end.

Definition is_health (rq : Request) : bool :=
  target rq =? "http://localhost:8000/health".

(** Number of health checks issued so far. *)
Definition health_checks (w : World) : nat :=
  length (filter is_health (sent w)).

(** The shape of a request to the clone endpoint. *)
Definition clone_shape (rq : Request) : Prop :=
  exists u,
    rq = {| method := "POST"; target := "http://localhost:8000/clone";
            headers := [("Content-Type", "application/json")];
            payload := Some (JObj [("url", JStr u)]) |}.

(** What holds in every world a run can reach. *)
Record Inv (w : World) : Prop := mkInv {
  inv_commits : commits w <> 0;
  inv_checks : health_checks w = 1;
  inv_busy :
    loading (app w) = true ->
    clone_inflight w = 1
    /\ clonedHtml (app w) = JNull /\ error (app w) = None;
  inv_idle : loading (app w) = false -> clone_inflight w = 0;
  inv_one : clonedHtml (app w) = JNull \/ error (app w) = None;
  inv_sent :
    Forall (fun rq => rq = health_request \/ clone_shape rq) (sent w)
}.

End Lifecycle.
Export Lifecycle.

(** ** The cloning pipeline behind [POST /clone] *)

Module Backend.

(** *** Data model *)

Record CloneRequest : Type := mkCloneRequest { rawUrl : string }.

Record NormalizedUrl : Type := mkNormalizedUrl {
  scheme : string;
  host : string;
  path : string;
  query : string
}.

Inductive BlockKind : Type :=
| Heading
| Paragraph
| Image
| Link
| Container.

Inductive Block : Type :=
| Blk (kind : BlockKind) (text : option string)
      (attributes : list (string * string)) (children : list Block).

Definition PageModel : Type := list Block.

(** The rendered DOM, held as the tree the snapshot serializes. *)
Inductive Node : Type :=
| Elem (tag : string) (hidden : bool) (styles : list (string * string))
       (kids : list Node)
| Text (t : string).

Record RenderedPage : Type := mkRenderedPage {
  finalUrl : string;
  htmlSnapshot : list Node;
  statusCode : nat;
  renderDurationMs : nat
}.

Record ProviderRequest : Type := mkProviderRequest {
  systemInstructions : string;
  pageModelSerialized : string;
  maxOutputTokens : nat
}.

Record ClonedHtml : Type := mkClonedHtml { html : string }.

Inductive ErrorKind : Type :=
| InvalidUrl
| RenderTimeout
| RenderUnavailable
| ProviderUnavailable
| ProviderRejected
| MalformedOutput
| InternalError.

Inductive CloneResult : Type :=
| Success (c : ClonedHtml)
| Failure (kind : ErrorKind) (message : string).

(** *** URL Validator *)

Definition lower_ascii (c : ascii) : ascii :=
  let n := nat_of_ascii c in
  if ((65 <=? n) && (n <=? 90))%nat then ascii_of_nat (n + 32) else c.

Fixpoint lower (s : string) : string :=
  match s with
  | EmptyString => EmptyString
  | String c rest => String (lower_ascii c) (lower rest)
  end.

Fixpoint drop (n : nat) (s : string) : string :=
  match n, s with
  | O, _ => s
  | S m, EmptyString => EmptyString
  | S m, String _ rest => drop m rest
  end.

(** Cut [s] at the first "://": what is before it, what is after. *)
Fixpoint split_scheme (s : string) : option (string * string) :=
  match s with
  | EmptyString => None
  | String c rest =>
      if String.prefix "://" s then Some ("", drop 3 s)
      else match split_scheme rest with
           | Some (a, b) => Some (String c a, b)
           | None => None
           end
  end.

(** The longest prefix with no character satisfying [stop], and the
    rest. *)
Fixpoint break_at (stop : ascii -> bool) (s : string) : string * string :=
  match s with
  | EmptyString => ("", "")
  | String c rest =>
      if stop c then ("", s)
      else let (a, b) := break_at stop rest in (String c a, b)
  end.

Definition is_one_of (cs : list ascii) (c : ascii) : bool :=
  existsb (Ascii.eqb c) cs.

Definition allowed_scheme (sch : string) : bool :=
  (sch =? "http") || (sch =? "https").

(** Loopback and link-local hosts. *)
Definition disallowed_host (h : string) : bool :=
  (h =? "localhost") || String.prefix "127." h || (h =? "[::1]")
  || String.prefix "169.254." h || String.prefix "[fe80:" h.

(** Modelled from the spec: the URL Validator of section 4.1, which is
    part of the backend and not among the sources.  It fails with
    [InvalidUrl] when the string is not an absolute URL with an allowed
    scheme and a host, or names a loopback / link-local host. *)
Definition validate (raw : string)
  : NormalizedUrl + ErrorKind * string :=
  match split_scheme raw with
  | None => inr (InvalidUrl, "not an absolute URL")
  | Some (sch, rest) =>
      if allowed_scheme (lower sch) then
        let (authority, tail) :=
          break_at (is_one_of ["/"; "?"; "#"]%char) rest in
        let h :=
          if String.prefix "[" authority then lower authority
          else lower (fst (break_at (is_one_of [":"%char]) authority)) in
        if h =? "" then inr (InvalidUrl, "missing host")
        else if disallowed_host h then inr (InvalidUrl, "host not allowed")
        else
          let (p, q) := break_at (is_one_of ["?"; "#"]%char) tail in
          inl {| scheme := lower sch; host := h; path := p; query := q |}
      else inr (InvalidUrl, "scheme not allowed")
  end.

(** The input starts with [p], letter case aside. *)
Definition starts_with (p raw : string) : bool :=
  String.prefix p (lower raw).

(** *** Content Extractor *)

Definition is_dropped_tag (tag : string) : bool :=
  existsb (String.eqb tag) ["script"; "style"; "meta"].

Definition classify (tag : string) : BlockKind :=
  if existsb (String.eqb tag) ["h1"; "h2"; "h3"; "h4"; "h5"; "h6"]
  then Heading
  else if tag =? "p" then Paragraph
  else if tag =? "img" then Image
  else if tag =? "a" then Link
  else Container.

Definition allowed_style (kv : string * string) : bool :=
  existsb (String.eqb (fst kv))
    ["color"; "background"; "font-size"; "font-weight"; "display"].

(** The text directly inside an element. *)
Fixpoint own_text (kids : list Node) : string :=
  match kids with
  | [] => ""
  | Text t :: rest => t ++ own_text rest
  | Elem _ _ _ _ :: rest => own_text rest
  end.

(** Modelled from the spec: the node classification of the Content
    Extractor (section 4.3), which is part of the backend and not among
    the sources.  Hidden elements and script / style / meta give
    nothing, any other node gives one block; semantic tags win over the
    generic container, and only containers keep children. *)
Fixpoint classify_node (n : Node) : list Block :=
  match n with
  | Text t => if t =? "" then [] else [Blk Paragraph (Some t) [] []]
  | Elem tag hidden styles kids =>
      if hidden || is_dropped_tag (lower tag) then []
      else
        match classify (lower tag) with
        | Container =>
            [Blk Container None (filter allowed_style styles)
                 (flat_map classify_node kids)]
        | k => [Blk k (if own_text kids =? "" then None
                       else Some (own_text kids))
                    (filter allowed_style styles) []]
        end
  end.

Fixpoint depth (b : Block) : nat :=
  match b with
  | Blk _ _ _ kids => S (fold_right (fun c acc => Nat.max (depth c) acc) O kids)
  end.

Definition forest_depth (f : list Block) : nat :=
  fold_right (fun c acc => Nat.max (depth c) acc) O f.

Definition kids_of (b : Block) : list Block :=
  match b with Blk _ _ _ kids => kids end.

(** Number of blocks on each of the first [d] levels. *)
Fixpoint widths (d : nat) (f : list Block) : list nat :=
  match d with
  | O => []
  | S d' => length f :: widths d' (flat_map kids_of f)
  end.

(** Hand out [n] places level by level, shallowest level first. *)
Fixpoint quotas (n : nat) (ws : list nat) : list nat :=
  match ws with
  | [] => []
  | w :: rest => Nat.min n w :: quotas (n - Nat.min n w) rest
  end.

(** Modelled from the spec: the retention pass of the truncation rule
    (section 3), part of the backend's Content Extractor, which is not
    among the sources.  A block is kept while its level still has a
    place, and its children are then visited with the places of the
    deeper levels; a block on a level without places is dropped
    together with its subtree.  The second component is the places
    left. *)
Fixpoint retain_block (b : Block) (qs : list nat) {struct b}
  : option Block * list nat :=
  match qs with
  | [] => (None, [])
  | O :: _ => (None, qs)
  | S q :: deeper =>
      match b with
      | Blk k t a kids =>
          let '(kids', deeper') :=
            (fix go (l : list Block) (st : list nat)
               : list Block * list nat :=
               match l with
               | [] => ([], st)
               | c :: cs =>
                   let '(oc, st1) := retain_block c st in
                   let '(rest, st2) := go cs st1 in
                   (match oc with
                    | Some c' => c' :: rest
                    | None => rest
                    end, st2)
               end) kids deeper in
          (Some (Blk k t a kids'), q :: deeper')
      end
  end.

Fixpoint retain_forest (l : list Block) (st : list nat)
  : list Block * list nat :=
  match l with
  | [] => ([], st)
  | c :: cs =>
      let '(oc, st1) := retain_block c st in
      let '(rest, st2) := retain_forest cs st1 in
      (match oc with
       | Some c' => c' :: rest
       | None => rest
       end, st2)
  end.

(** Induction over a block with the hypothesis available for every
    child. *)
Fixpoint Block_ind_kids (P : Block -> Prop)
  (H : forall k t a kids, Forall P kids -> P (Blk k t a kids))
  (b : Block) : P b :=
  match b with
  | Blk k t a kids =>
      H k t a kids
        ((fix all (l : list Block) : Forall P l :=
            match l with
            | [] => Forall_nil P
            | c :: cs => Forall_cons c (Block_ind_kids P H c) (all cs)
            end) kids)
  end.

(** What one block's retention guarantees, for every stock of places. *)
Definition bounded (b : Block) : Prop :=
  forall qs,
    length (snd (retain_block b qs)) = length qs
    /\ forall b', fst (retain_block b qs) = Some b' ->
                  depth b' <= length qs.

(** *** Clone Orchestrator: collaborators and stages *)

Inductive RenderError : Type := TimedOut | Unavailable.
Inductive ProviderError : Type := Unreachable | Declined.

(** How a call to a collaborator ends: with a value, with a failure
    of a kind the collaborator owns, or with an unexpected fault. *)
Inductive Outcome (E A : Type) : Type :=
| Returned (a : A)
| Failed (e : E) (detail : string)
| Raised (detail : string).
Arguments Returned {E A} a.
Arguments Failed {E A} e detail.
Arguments Raised {E A} detail.

(** Calls that leave the process. *)
Inductive Call : Type :=
| RenderCall (u : NormalizedUrl)
| GenerateCall (rq : ProviderRequest).

Inductive Stage : Type :=
| Validating (rq : CloneRequest)
| Rendering (u : NormalizedUrl)
| Extracting (p : RenderedPage)
| Prompting (m : PageModel)
| Generating (rq : ProviderRequest)
| Sanitizing (raw : string)
| Done (r : CloneResult).

Section Pipeline.

(** Configured ceilings, and the byte serialization of a PageModel,
    whose format the design leaves open. *)
Variable max_depth : nat.
Variable max_bytes : nat.
Variable serialize : PageModel -> string.

(** The first [n] blocks in breadth-first order, no deeper than
    [max_depth]. *)
Definition keep (n : nat) (f : PageModel) : PageModel :=
  fst (retain_forest f (quotas n (widths max_depth f))).

Definition fits (m : PageModel) : bool :=
  (String.length (serialize m) <=? max_bytes)%nat.

(** Modelled from the spec: the deterministic truncation rule of
    section 3 (breadth-first retention of earliest siblings), part
    of the backend's Content Extractor, which is not among the
    sources.  It keeps the longest breadth-first prefix of the blocks
    whose serialization fits the byte ceiling. *)
Definition truncate (f : PageModel) : PageModel :=
  let total := list_sum (widths max_depth f) in
  match find (fun n => fits (keep n f)) (rev (seq 0 (S total))) with
  | Some n => keep n f
  | None => []
  end.

(** Modelled from the spec: the Content Extractor of section 4.3,
    which is part of the backend and not among the sources. *)
Definition extract (p : RenderedPage) : PageModel :=
  truncate (flat_map classify_node (htmlSnapshot p)).

Variable render_page : NormalizedUrl -> Outcome RenderError RenderedPage.
Variable build : PageModel -> ProviderRequest.
Variable generate : ProviderRequest -> Outcome ProviderError string.

Definition label (k : ErrorKind) : string :=
  match k with
  | InvalidUrl => "Invalid URL"
  | RenderTimeout => "Rendering timed out"
  | RenderUnavailable => "Render service unavailable"
  | ProviderUnavailable => "Provider unavailable"
  | ProviderRejected => "Provider rejected the request"
  | MalformedOutput => "Provider output is not markup"
  | InternalError => "Internal error"
  end.

Definition fail (k : ErrorKind) (detail : string) : Stage :=
  Done (Failure k (label k ++ ": " ++ detail)).

Fixpoint trim_left (s : string) : string :=
  match s with
  | String c rest =>
      if is_one_of [" "; "009"; "010"; "013"]%char c then trim_left rest
      else s
  | EmptyString => EmptyString
  end.

(** Whether the provider's text reads as a markup fragment. *)
Definition is_markup (raw : string) : bool :=
  String.prefix "<" (trim_left raw).

(** Modelled from the spec: one transition of the per-request state
    machine of the Clone Orchestrator (section 4.6), which is part of
    the backend and not among the sources, together with the external
    calls the transition makes. *)
Definition advance (st : Stage) : Stage * list Call :=
  match st with
  | Validating rq =>
      match validate (rawUrl rq) with
      | inl u => (Rendering u, [])
      | inr (k, why) => (fail k why, [])
      end
  | Rendering u =>
      (match render_page u with
       | Returned p => Extracting p
       | Failed TimedOut d => fail RenderTimeout d
       | Failed Unavailable d => fail RenderUnavailable d
       | Raised d => fail InternalError d
       end, [RenderCall u])
  | Extracting p => (Prompting (extract p), [])
  | Prompting m => (Generating (build m), [])
  | Generating rq =>
      (match generate rq with
       | Returned raw => Sanitizing raw
       | Failed Unreachable d => fail ProviderUnavailable d
       | Failed Declined d => fail ProviderRejected d
       | Raised d => fail InternalError d
       end, [GenerateCall rq])
  | Sanitizing raw =>
      if is_markup raw then (Done (Success {| html := raw |}), [])
      else (fail MalformedOutput raw, [])
  | Done r => (Done r, [])
  end.

Fixpoint advance_n (n : nat) (st : Stage) : Stage * list Call :=
  match n with
  | O => (st, [])
  | S m =>
      let (st1, c1) := advance st in
      let (st2, c2) := advance_n m st1 in
      (st2, (c1 ++ c2)%list)
  end.

(** Modelled from the spec: the Clone Orchestrator of section 4.6,
    which is part of the backend and not among the sources.  Six
    transitions take [Validating] to [Done]; anything else at the
    boundary is reported as [InternalError]. *)
Definition clone (rq : CloneRequest) : CloneResult * list Call :=
  match advance_n 6 (Validating rq) with
  | (Done r, calls) => (r, calls)
  | (_, calls) =>
      (Failure InternalError (label InternalError ++ ": not finished"),
       calls)
  end.

End Pipeline.

(** *** A concrete serialization, to run the pipeline on examples *)

Definition kind_name (k : BlockKind) : string :=
  match k with
  | Heading => "heading"
  | Paragraph => "paragraph"
  | Image => "image"
  | Link => "link"
  | Container => "container"
  end.

(** One parenthesised entry per block: kind, text, children. *)
Fixpoint outline_block (b : Block) : string :=
  match b with
  | Blk k t _ kids =>
      "(" ++ kind_name k
          ++ (match t with Some x => " " ++ x | None => "" end)
          ++ String.concat "" (map outline_block kids) ++ ")"
  end.

Definition outline (m : PageModel) : string :=
  String.concat "" (map outline_block m).

(** The page [<html><body><h1>Hi</h1><p>World</p></body></html>]. *)
Definition hi_world : RenderedPage :=
  {| finalUrl := "https://example.com/";
     htmlSnapshot :=
       [Elem "html" false []
          [Elem "body" false []
             [Elem "h1" false [] [Text "Hi"];
              Elem "p" false [] [Text "World"]]]];
     statusCode := 200;
     renderDurationMs := 120 |}.

End Backend.
Export Backend.

(** ** Reading a run of the page *)

Module History.

(** The text of the last [Typed] event, [start] when there is none. *)
Definition last_typed (evs : list Event) (start : string) : string :=
  fold_left (fun acc ev => match ev with Typed v => v | _ => acc end)
            evs start.

Definition is_submit (ev : Event) : bool :=
  match ev with
  | Submit => true
  | _ => false
  end.

(** Number of submissions in a run. *)
Definition submits (evs : list Event) : nat :=
  length (filter is_submit evs).

Definition is_clone (rq : Request) : bool :=
  target rq =? "http://localhost:8000/clone".

(** Where the page stands with respect to its health check: still
    waiting for it with nothing else sent, or done with it, in which case
    either the backend said "healthy" or nothing else has been sent. *)
Definition Gate (w : World) : Prop :=
  (health_inflight w = 1
   /\ clone_inflight w = 0
   /\ backendStatus (app w) = JStr "checking..."
   /\ sent w = [health_request])
  \/ (health_inflight w = 0
      /\ (backendStatus (app w) = JStr "healthy"
          \/ sent w = [health_request])).



End History.
Export History.

(** * Properties of the client page *)

Module AppFacts.

Lemma str_nonempty (h : string) : h <> "" -> (h =? "") = false.
Proof. intro H. now apply String.eqb_neq. Qed.

(** What a 2xx response with a JSON body does to the state. *)
Lemma handleSubmit_ok (s : State) (r : Response) (data v : JsVal) :
  ok r = true -> body r = Json data -> get data "cloned_html" = Normal v ->
  handleSubmit (Resolved r) s
  = {| url := url s; clonedHtml := v; loading := false; error := None;
       backendStatus := backendStatus s |}.
Proof.
  intros Hok Hbody Hget.
  unfold handleSubmit, handleSubmit_settle, handleSubmit_try, json.
  simpl. rewrite Hok, Hbody. simpl. rewrite Hget. reflexivity.
Qed.

(** Whatever [handleSubmit_try] throws ends up as a non-empty error
    with the clone cleared. *)
Lemma handleSubmit_throw (s : State) (f : FetchResult) (e : Exn) :
  handleSubmit_try f = Throw e ->
  handleSubmit f s
  = {| url := url s; clonedHtml := JNull; loading := false;
       error := Some (str_or (message e)
                        "An unexpected error occurred during cloning.");
       backendStatus := backendStatus s |}.
Proof.
  intro H. unfold handleSubmit, handleSubmit_settle. rewrite H.
  reflexivity.
Qed.

Lemma str_or_nonempty (a b : string) : b <> "" -> str_or a b <> "".
Proof.
  intro Hb. unfold str_or. destruct (a =? "") eqn:E; [exact Hb|].
  now apply String.eqb_neq.
Qed.

(** A non-2xx response never completes the [try] block normally. *)
Lemma handleSubmit_try_not_ok (r : Response) :
  ok r = false -> exists e, handleSubmit_try (Resolved r) = Throw e.
Proof.
  intro Hok. unfold handleSubmit_try, json. simpl. rewrite Hok. simpl.
  destruct (body r) as [d|m]; simpl; [|eauto].
  destruct (get d "detail"); simpl; eauto.
Qed.

Lemma error_message_shown (s : State) (m : string) :
  error s = Some m -> m <> "" -> error_message (render s) = Some m.
Proof.
  intros H Hm. unfold render. simpl. rewrite H.
  now rewrite (str_nonempty m Hm).
Qed.

End AppFacts.

(** ** C1: the preview iframe *)

(** C1, as stated, fails: after a successful clone the preview iframe's
    [sandbox] attribute does not withhold script, same-origin, popup, form
    and modal permissions from the embedded document; here it does not
    withhold script execution. *)
Lemma sandbox_does_not_restrict :
  ~ (exists p,
        preview (render (handleSubmit
          (Resolved {| status := 200;
                       body := Json (JObj [("cloned_html",
                                            JStr "<h1>Hi</h1>")]) |})
          (setUrl "https://example.com" initial))) = Some p
        /\ forall perm,
             In perm [Scripts; SameOrigin; Popups; Forms; Modals] ->
             restricts (sandbox p) perm = true).
Proof.
  intros [p [Hp Hall]].
  vm_compute in Hp. injection Hp as <-.
  specialize (Hall Scripts (or_introl eq_refl)).
  vm_compute in Hall. discriminate.
Qed.

(** C1, amended: after a 2xx response whose [cloned_html] is a non-empty
    string, that string is rendered in an iframe that carries a [sandbox]
    attribute listing exactly allow-scripts, allow-same-origin,
    allow-popups, allow-forms and allow-modals; so these five permissions
    are granted to the embedded document, and every permission not listed
    stays withheld. *)
Theorem preview_iframe_sandbox
  (s : State) (r : Response) (data : JsVal) (h : string) :
  ok r = true ->
  body r = Json data ->
  get data "cloned_html" = Normal (JStr h) ->
  h <> "" ->
  exists p,
    preview (render (handleSubmit (Resolved r) s)) = Some p
    /\ srcDoc p = JStr h
    /\ tokens (sandbox p)
       = ["allow-scripts"; "allow-same-origin"; "allow-popups";
          "allow-forms"; "allow-modals"]
    /\ (forall perm,
          In perm [Scripts; SameOrigin; Popups; Forms; Modals] ->
          restricts (sandbox p) perm = false)
    /\ (forall perm,
          ~ In perm [Scripts; SameOrigin; Popups; Forms; Modals] ->
          restricts (sandbox p) perm = true).
Proof.
  intros Hok Hbody Hget Hh.
  rewrite (AppFacts.handleSubmit_ok s r data (JStr h) Hok Hbody Hget).
  unfold render; simpl. rewrite (AppFacts.str_nonempty h Hh). simpl.
  eexists. split; [reflexivity|]. simpl.
  split; [reflexivity|]. split; [reflexivity|]. split.
  - intros perm Hin. simpl in Hin.
    repeat (destruct Hin as [<-|Hin]; [reflexivity|]). destruct Hin.
  - intros perm Hnot.
    destruct perm; try reflexivity; exfalso; apply Hnot; simpl; tauto.
Qed.

Lemma preview_iframe_sandbox_witness :
  exists p,
    preview (render (handleSubmit
      (Resolved {| status := 200;
                   body := Json (JObj [("cloned_html",
                                        JStr "<div>Hi World</div>")]) |})
      initial)) = Some p
    /\ srcDoc p = JStr "<div>Hi World</div>"
    /\ tokens (sandbox p)
       = ["allow-scripts"; "allow-same-origin"; "allow-popups";
          "allow-forms"; "allow-modals"]
    /\ (forall perm,
          In perm [Scripts; SameOrigin; Popups; Forms; Modals] ->
          restricts (sandbox p) perm = false)
    /\ (forall perm,
          ~ In perm [Scripts; SameOrigin; Popups; Forms; Modals] ->
          restricts (sandbox p) perm = true).
Proof.
  apply (preview_iframe_sandbox initial
           {| status := 200;
              body := Json (JObj [("cloned_html",
                                   JStr "<div>Hi World</div>")]) |}
           (JObj [("cloned_html", JStr "<div>Hi World</div>")])
           "<div>Hi World</div>").
  - reflexivity.
  - reflexivity.
  - reflexivity.
  - discriminate.
Defined.

(** ** C2: what a non-2xx response shows *)

(** C2, as stated, fails: a 500 response whose body is not JSON (the
    plain-text page a server or proxy sends on an unhandled fault) has no
    [detail], yet the message shown is neither of the page's generic
    messages: it is the message of the exception thrown by
    [response.json()]. *)
Lemma non_json_failure_shows_parse_error :
  let r := {| status := 500;
              body := NotJson "Unexpected token I in JSON at position 0" |} in
  let v := render (handleSubmit (Resolved r) initial) in
  ok r = false
  /\ ~ (exists g,
          In g ["Failed to clone website";
                "An unexpected error occurred during cloning."]
          /\ error_message v = Some g).
Proof.
  split; [reflexivity|].
  intros [g [Hin Hg]]. vm_compute in Hg. injection Hg as <-.
  simpl in Hin. destruct Hin as [H|[H|[]]]; discriminate.
Qed.

(** C2, amended: for every non-2xx response no cloned preview is
    displayed and a non-empty error message is shown.  When the body is a
    JSON object the message is its [detail] if that is a non-empty string,
    and "Failed to clone website" if [detail] is missing or the empty
    string; when the body is not JSON the message is the parser's. *)
Theorem non_ok_response_error (s : State) (r : Response) :
  ok r = false ->
  preview (render (handleSubmit (Resolved r) s)) = None
  /\ clonedHtml (handleSubmit (Resolved r) s) = JNull
  /\ (exists m,
        m <> "" /\ error_message (render (handleSubmit (Resolved r) s)) = Some m)
  /\ (forall props d,
        body r = Json (JObj props) ->
        lookup "detail" props = Some (JStr d) ->
        error_message (render (handleSubmit (Resolved r) s))
        = Some (if d =? "" then "Failed to clone website" else d))
  /\ (forall props,
        body r = Json (JObj props) ->
        lookup "detail" props = None ->
        error_message (render (handleSubmit (Resolved r) s))
        = Some "Failed to clone website")
  /\ (forall m,
        body r = NotJson m -> m <> "" ->
        error_message (render (handleSubmit (Resolved r) s)) = Some m).
Proof.
  intro Hok.
  destruct (AppFacts.handleSubmit_try_not_ok r Hok) as [e He].
  pose proof (AppFacts.handleSubmit_throw s _ e He) as Hs.
  assert (Hne : str_or (message e)
                  "An unexpected error occurred during cloning." <> "")
    by (apply AppFacts.str_or_nonempty; discriminate).
  assert (Hshown :
            error_message (render (handleSubmit (Resolved r) s))
            = Some (str_or (message e)
                      "An unexpected error occurred during cloning.")).
  { apply AppFacts.error_message_shown; [rewrite Hs; reflexivity|exact Hne]. }
  split; [rewrite Hs; reflexivity|].
  split; [rewrite Hs; reflexivity|].
  split; [eexists; split; [exact Hne|exact Hshown]|].
  rewrite Hshown.
  unfold handleSubmit_try, json in He. simpl in He. rewrite Hok in He.
  simpl in He.
  split; [|split].
  - intros props d Hb Hl. rewrite Hb in He. simpl in He. rewrite Hl in He.
    simpl in He. unfold js_or in He. simpl in He.
    destruct (d =? "") eqn:Ed; simpl in He; injection He as <-; simpl.
    + reflexivity.
    + unfold str_or. now rewrite Ed.
  - intros props Hb Hl. rewrite Hb in He. simpl in He. rewrite Hl in He.
    simpl in He. injection He as <-. reflexivity.
  - intros m Hb Hm. rewrite Hb in He. simpl in He. injection He as <-.
    simpl. unfold str_or. now rewrite (AppFacts.str_nonempty m Hm).
Qed.

Lemma non_ok_response_error_witness :
  ok {| status := 422;
        body := Json (JObj [("detail", JStr "Invalid URL")]) |} = false
  /\ preview (render (handleSubmit
       (Resolved {| status := 422;
                    body := Json (JObj [("detail", JStr "Invalid URL")]) |})
       initial)) = None
  /\ error_message (render (handleSubmit
       (Resolved {| status := 422;
                    body := Json (JObj [("detail", JStr "Invalid URL")]) |})
       initial)) = Some "Invalid URL".
Proof.
  split; [reflexivity|].
  destruct (non_ok_response_error initial
              {| status := 422;
                 body := Json (JObj [("detail", JStr "Invalid URL")]) |}
              eq_refl) as (Hp & _ & _ & Hd & _).
  split; [exact Hp|].
  exact (Hd [("detail", JStr "Invalid URL")] "Invalid URL" eq_refl eq_refl).
Defined.

(** ** C4: the displayed backend status *)




(** ** Runs of the mounted page *)

Module LifecycleFacts.

(** After the first commit the health effect is never due again: its
    dependency array is empty, so nothing in it can change. *)
Lemma commit_settled (w : World) :
  commits w <> 0 ->
  commit w
  = {| app := app w; commits := S (commits w); last_deps := [];
       health_inflight := health_inflight w;
       clone_inflight := clone_inflight w; sent := sent w |}.
Proof.
  intro H. unfold commit, effect_due, health_deps.
  destruct (commits w =? 0)%nat eqn:E.
  - apply Nat.eqb_eq in E. contradiction.
  - simpl. destruct (last_deps w); reflexivity.
Qed.

Lemma inv_mount : Inv mount.
Proof.
  constructor; simpl; try tauto; try discriminate; try reflexivity.
  constructor; [now left|constructor].
Qed.

Lemma settle_fields (f : FetchResult) (s : State) :
  loading (handleSubmit_settle f s) = false
  /\ backendStatus (handleSubmit_settle f s) = backendStatus s
  /\ url (handleSubmit_settle f s) = url s
  /\ match handleSubmit_try f with
     | Normal v =>
         clonedHtml (handleSubmit_settle f s) = v
         /\ error (handleSubmit_settle f s) = error s
     | Throw e =>
         clonedHtml (handleSubmit_settle f s) = clonedHtml s
         /\ error (handleSubmit_settle f s)
            = Some (str_or (message e)
                      "An unexpected error occurred during cloning.")
     end.
Proof.
  unfold handleSubmit_settle.
  destruct (handleSubmit_try f); simpl; repeat split; reflexivity.
Qed.

Lemma health_fields (f : FetchResult) (s : State) :
  loading (checkBackendHealth f s) = loading s
  /\ clonedHtml (checkBackendHealth f s) = clonedHtml s
  /\ error (checkBackendHealth f s) = error s
  /\ url (checkBackendHealth f s) = url s.
Proof.
  unfold checkBackendHealth.
  destruct (checkBackendHealth_try f); simpl; repeat split; reflexivity.
Qed.

(** The button is enabled only when idle and healthy. *)
Lemma button_enabled (s : State) :
  button_disabled (render s) = false ->
  loading s = false /\ backendStatus s = JStr "healthy".
Proof.
  unfold render; simpl. intro H.
  apply orb_false_iff in H. destruct H as [Hl Hs].
  split; [exact Hl|].
  apply negb_false_iff in Hs.
  destruct (backendStatus s); simpl in Hs; try discriminate.
  apply String.eqb_eq in Hs. now subst.
Qed.

Lemma controls_disabled (s : State) :
  loading s = true \/ backendStatus s <> JStr "healthy" ->
  input_disabled (render s) = true /\ button_disabled (render s) = true.
Proof.
  intro H. unfold render; simpl.
  assert (G : loading s
              || negb (strict_eq_str (backendStatus s) "healthy") = true).
  { destruct H as [H|H]; [rewrite H; reflexivity|].
    apply orb_true_iff. right. apply negb_true_iff.
    destruct (backendStatus s) as [| | | |x| |]; simpl; try reflexivity.
    apply String.eqb_neq. intro E. apply H. now subst. }
  now rewrite G.
Qed.

Lemma inv_step (ev : Event) (w w' : World) :
  Inv w -> step ev w = Some w' -> Inv w'.
Proof.
  intros [Hc Hk Hb Hi Ho Hs] Hstep.
  destruct ev as [|f|v| |f]; unfold step in Hstep.
  - injection Hstep as <-. rewrite (commit_settled w Hc).
    constructor; simpl; auto.
  - destruct (health_inflight w) as [|n]; [discriminate|].
    injection Hstep as <-. rewrite commit_settled by exact Hc.
    destruct (health_fields f (app w)) as (Hl & Hh & He & _).
    constructor; simpl; auto; rewrite ?Hl, ?Hh, ?He; auto.
  - destruct (input_disabled (render (app w))); [discriminate|].
    injection Hstep as <-. rewrite commit_settled by exact Hc.
    constructor; simpl; auto.
  - destruct (button_disabled (render (app w))) eqn:Hd; [discriminate|].
    apply button_enabled in Hd. destruct Hd as [Hl _].
    unfold handleSubmit_begin in Hstep. injection Hstep as <-.
    rewrite commit_settled by exact Hc.
    constructor; simpl; auto; try discriminate;
      try (intros _; rewrite (Hi Hl); now auto).
    constructor; [right; eexists; reflexivity|exact Hs].
  - destruct (clone_inflight w) as [|n] eqn:Hn; [discriminate|].
    injection Hstep as <-. rewrite commit_settled by exact Hc.
    destruct (loading (app w)) eqn:Hl; [|specialize (Hi eq_refl); lia].
    destruct (Hb eq_refl) as (Hone & Hh & He).
    destruct (settle_fields f (app w)) as (Sl & _ & _ & Sv).
    constructor;
      cbn [app commits last_deps health_inflight clone_inflight sent];
      auto.
    + rewrite Sl. discriminate.
    + destruct (handleSubmit_try f); destruct Sv as [Sv1 Sv2].
      * right. now rewrite Sv2.
      * left. now rewrite Sv1.
Qed.

Lemma inv_run (evs : list Event) :
  forall w w', Inv w -> run evs w = Some w' -> Inv w'.
Proof.
  induction evs as [|ev evs IH]; intros w w' Hw Hrun; simpl in Hrun.
  - now injection Hrun as <-.
  - destruct (step ev w) as [w1|] eqn:Hstep; [|discriminate].
    exact (IH w1 w' (inv_step ev w w1 Hw Hstep) Hrun).
Qed.

Lemma reachable_inv (evs : list Event) (w : World) :
  run evs mount = Some w -> Inv w.
Proof. exact (inv_run evs mount w inv_mount). Qed.

(** Once no health request is in flight, nothing writes the status. *)
Lemma status_frozen_step (ev : Event) (w w' : World) :
  commits w <> 0 -> health_inflight w = 0 -> step ev w = Some w' ->
  commits w' <> 0 /\ health_inflight w' = 0
  /\ backendStatus (app w') = backendStatus (app w).
Proof.
  intros Hc Hh Hstep.
  destruct ev as [|f|v| |f]; unfold step in Hstep.
  - injection Hstep as <-. rewrite commit_settled by exact Hc. simpl. auto.
  - rewrite Hh in Hstep. discriminate.
  - destruct (input_disabled (render (app w))); [discriminate|].
    injection Hstep as <-. rewrite commit_settled by exact Hc. simpl. auto.
  - destruct (button_disabled (render (app w))); [discriminate|].
    unfold handleSubmit_begin in Hstep. injection Hstep as <-.
    rewrite commit_settled by exact Hc. simpl. auto.
  - destruct (clone_inflight w); [discriminate|].
    injection Hstep as <-. rewrite commit_settled by exact Hc. simpl.
    destruct (settle_fields f (app w)) as (_ & Sb & _). auto.
Qed.

Lemma status_frozen_run (evs : list Event) :
  forall w w',
    commits w <> 0 -> health_inflight w = 0 -> run evs w = Some w' ->
    backendStatus (app w') = backendStatus (app w).
Proof.
  induction evs as [|ev evs IH]; intros w w' Hc Hh Hrun; simpl in Hrun.
  - now injection Hrun as <-.
  - destruct (step ev w) as [w1|] eqn:Hstep; [|discriminate].
    destruct (status_frozen_step ev w w1 Hc Hh Hstep) as (Hc1 & Hh1 & Hb).
    rewrite <- Hb. exact (IH w1 w' Hc1 Hh1 Hrun).
Qed.

Lemma run_app (evs1 evs2 : list Event) :
  forall w w1 w2,
    run evs1 w = Some w1 -> run evs2 w1 = Some w2 ->
    run (evs1 ++ evs2) w = Some w2.
Proof.
  induction evs1 as [|ev evs1 IH]; intros w w1 w2 H1 H2; simpl in *.
  - now injection H1 as <-.
  - destruct (step ev w) as [w0|]; [|discriminate].
    exact (IH w0 w1 w2 H1 H2).
Qed.

End LifecycleFacts.

(** ** C3: the clone request and what is displayed *)



(** ** C8: when a clone request can be submitted *)

(** C8: in every state with [loading] true or [backendStatus] not
    exactly "healthy", the URL input and the submit button are both
    rendered disabled, and neither typing nor submitting can happen; and
    whenever a run of the page does submit, [backendStatus] is exactly
    "healthy", [loading] is false and no clone request is in flight.  A
    backend reporting "degraded" therefore cannot be used. *)
Theorem submit_only_when_healthy_and_idle
  (w : World) (evs : list Event) (r r' : World) :
  (loading (app w) = true \/ backendStatus (app w) <> JStr "healthy" ->
   input_disabled (render (app w)) = true
   /\ button_disabled (render (app w)) = true
   /\ step Submit w = None
   /\ forall v, step (Typed v) w = None)
  /\ (run evs mount = Some r ->
      step Submit r = Some r' ->
      backendStatus (app r) = JStr "healthy"
      /\ loading (app r) = false
      /\ clone_inflight r = 0).
Proof.
  split.
  - intro H.
    destruct (LifecycleFacts.controls_disabled (app w) H) as [Hi Hb].
    split; [exact Hi|]. split; [exact Hb|].
    split; [unfold step; now rewrite Hb|].
    intro v. unfold step. now rewrite Hi.
  - intros Hrun Hstep.
    pose proof (LifecycleFacts.reachable_inv evs r Hrun) as Hinv.
    unfold step in Hstep.
    destruct (button_disabled (render (app r))) eqn:Hb; [discriminate|].
    destruct (LifecycleFacts.button_enabled (app r) Hb) as [Hl Hs].
    split; [exact Hs|]. split; [exact Hl|].
    exact (inv_idle r Hinv Hl).
Qed.

Lemma submit_only_when_healthy_and_idle_witness :
  exists w r r',
    run [HealthSettles
           (Resolved {| status := 200;
                        body := Json (JObj [("status", JStr "degraded")]) |})]
        mount = Some w
    /\ backendStatus (app w) = JStr "degraded"
    /\ input_disabled (render (app w)) = true
    /\ button_disabled (render (app w)) = true
    /\ step Submit w = None
    /\ run [HealthSettles
              (Resolved {| status := 200;
                           body := Json (JObj [("status",
                                                JStr "healthy")]) |})]
           mount = Some r
    /\ step Submit r = Some r'
    /\ clone_inflight r = 0.
Proof.
  pose (degraded := Resolved {| status := 200;
                                body := Json (JObj [("status",
                                                     JStr "degraded")]) |}).
  pose (healthy := Resolved {| status := 200;
                               body := Json (JObj [("status",
                                                    JStr "healthy")]) |}).
  let wd := eval vm_compute in (run [HealthSettles degraded] mount) in
  let wh := eval vm_compute in (run [HealthSettles healthy] mount) in
  lazymatch wd with
  | Some ?w =>
      lazymatch wh with
      | Some ?r =>
          let rs := eval vm_compute in (step Submit r) in
          lazymatch rs with
          | Some ?r' =>
              exists w, r, r';
              destruct (submit_only_when_healthy_and_idle
                          w [HealthSettles healthy] r r')
                as [Hblocked Hfree]
          end
      end
  end.
  destruct Hblocked as (Hi & Hb & Hs & _); [right; simpl; discriminate|].
  split; [reflexivity|]. split; [reflexivity|].
  split; [exact Hi|]. split; [exact Hb|]. split; [exact Hs|].
  split; [reflexivity|]. split; [reflexivity|].
  exact (proj2 (proj2 (Hfree eq_refl eq_refl))).
Defined.

(** ** C9: a submission from start to finish *)

(** C9: in every run of the page, a submission first sets [loading] and
    clears [clonedHtml] and [error], then issues its request; and when
    the request settles, [loading] is false and at most one of
    [clonedHtml] / [error] is non-null: a completed [try] block sets only
    [clonedHtml], a throw sets only [error] and leaves the clone
    cleared. *)
Theorem submission_clears_then_settles
  (evs : list Event) (w w' : World) (ev : Event) :
  run evs mount = Some w ->
  step ev w = Some w' ->
  (ev = Submit ->
   loading (app w') = true
   /\ clonedHtml (app w') = JNull
   /\ error (app w') = None
   /\ sent w' = clone_request (app w) :: sent w)
  /\ (forall f, ev = CloneSettles f ->
      loading (app w') = false
      /\ match handleSubmit_try f with
         | Normal v => clonedHtml (app w') = v /\ error (app w') = None
         | Throw e =>
             clonedHtml (app w') = JNull
             /\ exists m, m <> "" /\ error (app w') = Some m
         end)
  /\ (clonedHtml (app w') = JNull \/ error (app w') = None).
Proof.
  intros Hrun Hstep.
  pose proof (LifecycleFacts.reachable_inv evs w Hrun) as Hinv.
  pose proof (LifecycleFacts.inv_step ev w w' Hinv Hstep) as Hinv'.
  split; [|split; [|exact (inv_one w' Hinv')]].
  - intros ->. unfold step in Hstep.
    destruct (button_disabled (render (app w))); [discriminate|].
    unfold handleSubmit_begin in Hstep. injection Hstep as <-.
    rewrite LifecycleFacts.commit_settled
      by exact (inv_commits w Hinv).
    simpl. auto.
  - intros f ->. unfold step in Hstep.
    destruct (clone_inflight w) as [|n] eqn:Hn; [discriminate|].
    injection Hstep as <-.
    rewrite LifecycleFacts.commit_settled
      by exact (inv_commits w Hinv).
    cbn [app].
    destruct (loading (app w)) eqn:Hl.
    + destruct (inv_busy w Hinv Hl) as (_ & Hh & He).
      destruct (LifecycleFacts.settle_fields f (app w))
        as (Sl & _ & _ & Sv).
      split; [exact Sl|].
      destruct (handleSubmit_try f) as [v|e]; destruct Sv as [Sv1 Sv2].
      * split; [exact Sv1|]. now rewrite Sv2.
      * split; [now rewrite Sv1|].
        eexists. split; [|exact Sv2].
        apply AppFacts.str_or_nonempty. discriminate.
    + pose proof (inv_idle w Hinv Hl). lia.
Qed.

Lemma submission_clears_then_settles_witness :
  exists w w',
    run [HealthSettles
           (Resolved {| status := 200;
                        body := Json (JObj [("status", JStr "healthy")]) |});
         Typed "https://example.com"; Submit] mount = Some w
    /\ step (CloneSettles (Rejected "Failed to fetch")) w = Some w'
    /\ loading (app w') = false
    /\ clonedHtml (app w') = JNull
    /\ exists m, m <> "" /\ error (app w') = Some m.
Proof.
  eexists. eexists. split; [reflexivity|]. split; [reflexivity|].
  destruct (submission_clears_then_settles
              [HealthSettles
                 (Resolved {| status := 200;
                              body := Json (JObj [("status",
                                                   JStr "healthy")]) |});
               Typed "https://example.com"; Submit]
              _ _ (CloneSettles (Rejected "Failed to fetch"))
              eq_refl eq_refl) as (_ & H & _).
  destruct (H (Rejected "Failed to fetch") eq_refl) as (Hl & Hc & He).
  auto.
Defined.

(** ** C10: the health check runs once *)

(** C10: the health request is issued by the first commit (mount), and
    in every state a run of the page can reach exactly one health request
    has been issued; once that request has settled, no later event
    changes [backendStatus]. *)
Theorem health_checked_once (evs : list Event) (w : World) :
  run evs mount = Some w ->
  sent mount = [health_request]
  /\ health_checks w = 1
  /\ (health_inflight w = 0 ->
      forall evs' w',
        run evs' w = Some w' ->
        backendStatus (app w') = backendStatus (app w)
        /\ status_text (render (app w')) = status_text (render (app w))).
Proof.
  intro Hrun.
  pose proof (LifecycleFacts.reachable_inv evs w Hrun) as Hinv.
  split; [reflexivity|].
  split; [exact (inv_checks w Hinv)|].
  intros Hh evs' w' Hrun'.
  assert (E : backendStatus (app w') = backendStatus (app w)).
  { exact (LifecycleFacts.status_frozen_run evs' w w'
             (inv_commits w Hinv) Hh Hrun'). }
  split; [exact E|]. unfold render; simpl. exact E.
Qed.

Lemma health_checked_once_witness :
  exists w w',
    run [HealthSettles (Rejected "Failed to fetch")] mount = Some w
    /\ run [Rerender; Rerender] w = Some w'
    /\ health_checks w' = 1
    /\ backendStatus (app w') = JStr "unreachable".
Proof.
  eexists. eexists. split; [reflexivity|]. split; [reflexivity|].
  split.
  - exact (proj1 (proj2
      (health_checked_once
         [HealthSettles (Rejected "Failed to fetch"); Rerender; Rerender]
         _ eq_refl))).
  - exact (proj1 (proj2 (proj2
      (health_checked_once [HealthSettles (Rejected "Failed to fetch")]
         _ eq_refl)) eq_refl [Rerender; Rerender] _ eq_refl)).
Defined.

(** * Properties of the pipeline *)

Module BackendFacts.

Lemma prefix_split (p s : string) :
  String.prefix p s = true -> s = p ++ drop (String.length p) s.
Proof.
  revert s. induction p as [|c p IH]; intros s H.
  - reflexivity.
  - destruct s as [|d s]; simpl in H; [discriminate|].
    destruct (ascii_dec c d) as [->|]; [|discriminate].
    simpl. f_equal. exact (IH s H).
Qed.

Lemma prefix_append (p x : string) : String.prefix p (p ++ x) = true.
Proof.
  induction p as [|c p IH]; simpl.
  - now destruct x.
  - destruct (ascii_dec c c); [exact IH|contradiction].
Qed.

Lemma append_assoc (a b c : string) : (a ++ b) ++ c = a ++ (b ++ c).
Proof. induction a as [|x a IH]; simpl; [reflexivity|now rewrite IH]. Qed.

Lemma lower_append (a b : string) : lower (a ++ b) = lower a ++ lower b.
Proof. induction a as [|c a IH]; simpl; [reflexivity|now rewrite IH]. Qed.

Lemma split_scheme_spec (s a b : string) :
  split_scheme s = Some (a, b) -> s = a ++ "://" ++ b.
Proof.
  revert a b. induction s as [|c s IH]; intros a b H.
  - discriminate.
  - cbn [split_scheme] in H.
    destruct (String.prefix "://" (String c s)) eqn:Hp.
    + injection H as <- <-. exact (prefix_split "://" _ Hp).
    + destruct (split_scheme s) as [[a' b']|]; [|discriminate].
      injection H as <- <-. simpl. f_equal. exact (IH a' b' eq_refl).
Qed.

(** A URL the validator accepts starts with http:// or https://. *)
Lemma validate_accepts (raw : string) (u : NormalizedUrl) :
  validate raw = inl u ->
  starts_with "http://" raw = true \/ starts_with "https://" raw = true.
Proof.
  unfold validate, starts_with. intro H.
  destruct (split_scheme raw) as [[sch rest]|] eqn:Hs; [|discriminate].
  apply split_scheme_spec in Hs. subst raw.
  destruct (allowed_scheme (lower sch)) eqn:Ha; [|discriminate].
  clear H. rewrite lower_append. unfold allowed_scheme in Ha.
  apply orb_true_iff in Ha. destruct Ha as [Ha|Ha];
    apply String.eqb_eq in Ha; rewrite Ha; rewrite lower_append.
  - left. exact (prefix_append "http://" (lower rest)).
  - right. exact (prefix_append "https://" (lower rest)).
Qed.

Lemma validate_kind (raw : string) (k : ErrorKind) (why : string) :
  validate raw = inr (k, why) -> k = InvalidUrl.
Proof.
  unfold validate. intro H.
  destruct (split_scheme raw) as [[sch rest]|]; [|congruence].
  destruct (allowed_scheme (lower sch)); [|congruence].
  destruct (break_at _ rest) as [authority tail].
  destruct (_ =? ""); [congruence|].
  destruct (disallowed_host _); [congruence|].
  destruct (break_at _ tail). discriminate.
Qed.

Lemma label_nonempty (k : ErrorKind) (d : string) :
  label k ++ ": " ++ d <> "".
Proof. destruct k; discriminate. Qed.

(** Run the transitions whose outcome is already known. *)
Ltac run_stage := cbn [advance_n advance fail List.app].

(** The machine has stopped: name the result and the calls, then check
    what is said about them. *)
Ltac reached_done :=
  do 2 eexists;
  split; [reflexivity|];
  split; [reflexivity|];
  split; [try exact I; apply label_nonempty|];
  split; intros; first [congruence|eauto].

End BackendFacts.

(** ** C6: inputs without an http / https scheme *)

(** C6: for every input that does not start with http:// or https://
    (letter case aside), the URL Validator fails with [InvalidUrl], and
    the Orchestrator returns that failure without a single external call:
    the Render Client is never invoked. *)
Theorem invalid_scheme_short_circuits
  (max_depth max_bytes : nat) (serialize : PageModel -> string)
  (render_page : NormalizedUrl -> Outcome RenderError RenderedPage)
  (build : PageModel -> ProviderRequest)
  (generate : ProviderRequest -> Outcome ProviderError string)
  (rq : CloneRequest) :
  starts_with "http://" (rawUrl rq) = false ->
  starts_with "https://" (rawUrl rq) = false ->
  (exists why, validate (rawUrl rq) = inr (InvalidUrl, why))
  /\ (exists m,
        clone max_depth max_bytes serialize render_page build generate rq
        = (Failure InvalidUrl m, [])).
Proof.
  intros H1 H2.
  destruct (validate (rawUrl rq)) as [u|[k why]] eqn:Hv.
  - destruct (BackendFacts.validate_accepts _ u Hv); congruence.
  - pose proof (BackendFacts.validate_kind _ k why Hv) as ->.
    split; [now exists why|].
    unfold clone. cbn [advance_n advance]. rewrite Hv.
    unfold fail. eexists. reflexivity.
Qed.

Lemma invalid_scheme_short_circuits_witness :
  starts_with "http://" "ftp://example.com/index.html" = false
  /\ starts_with "https://" "ftp://example.com/index.html" = false
  /\ exists m,
       clone 6 4096 (fun _ => "")
             (fun _ => Raised "render must not be called")
             (fun _ => {| systemInstructions := "";
                          pageModelSerialized := "";
                          maxOutputTokens := 0 |})
             (fun _ => Raised "provider must not be called")
             {| rawUrl := "ftp://example.com/index.html" |}
       = (Failure InvalidUrl m, []).
Proof.
  split; [reflexivity|]. split; [reflexivity|].
  exact (proj2 (invalid_scheme_short_circuits 6 4096 (fun _ => "")
                  (fun _ => Raised "render must not be called")
                  (fun _ => {| systemInstructions := "";
                               pageModelSerialized := "";
                               maxOutputTokens := 0 |})
                  (fun _ => Raised "provider must not be called")
                  {| rawUrl := "ftp://example.com/index.html" |}
                  eq_refl eq_refl)).
Defined.

(** ** C5: the Orchestrator's boundary *)

(** C5: for every request and whatever the Render Client and the
    provider do, the state machine reaches [Done] within six transitions
    and the Orchestrator returns that [CloneResult]: a [Success], or a
    [Failure] with a kind of the taxonomy and a non-empty message.  A
    fault raised by the Render Client or by the provider is returned as
    [InternalError]. *)
Theorem orchestrator_always_returns
  (max_depth max_bytes : nat) (serialize : PageModel -> string)
  (render_page : NormalizedUrl -> Outcome RenderError RenderedPage)
  (build : PageModel -> ProviderRequest)
  (generate : ProviderRequest -> Outcome ProviderError string)
  (rq : CloneRequest) :
  exists r calls,
    advance_n max_depth max_bytes serialize render_page build generate
              6 (Validating rq) = (Done r, calls)
    /\ clone max_depth max_bytes serialize render_page build generate rq
       = (r, calls)
    /\ match r with
       | Success _ => True
       | Failure _ m => m <> ""
       end
    /\ (forall u d,
          validate (rawUrl rq) = inl u -> render_page u = Raised d ->
          exists m, r = Failure InternalError m)
    /\ (forall u p d,
          validate (rawUrl rq) = inl u -> render_page u = Returned p ->
          generate (build (extract max_depth max_bytes serialize p))
          = Raised d ->
          exists m, r = Failure InternalError m).
Proof.
  unfold clone. BackendFacts.run_stage.
  destruct (validate (rawUrl rq)) as [u|[k why]] eqn:Hv;
    BackendFacts.run_stage; [|BackendFacts.reached_done].
  destruct (render_page u) as [p|e d|d] eqn:Hr;
    [|destruct e|]; BackendFacts.run_stage;
    [|BackendFacts.reached_done..].
  destruct (generate (build (extract max_depth max_bytes serialize p)))
    as [raw|e d|d] eqn:Hg;
    [|destruct e|]; BackendFacts.run_stage;
    [|BackendFacts.reached_done..].
  destruct (is_markup raw) eqn:Hm; BackendFacts.run_stage;
    BackendFacts.reached_done.
Qed.

Lemma orchestrator_always_returns_witness :
  exists m,
    fst (clone 6 4096 outline
           (fun _ => Raised "connection object is null")
           (fun m => {| systemInstructions := "Rebuild this page";
                        pageModelSerialized := outline m;
                        maxOutputTokens := 2048 |})
           (fun _ => Returned "<div>Hi World</div>")
           {| rawUrl := "https://example.com" |})
    = Failure InternalError m.
Proof.
  destruct (orchestrator_always_returns 6 4096 outline
              (fun _ => Raised "connection object is null")
              (fun m => {| systemInstructions := "Rebuild this page";
                           pageModelSerialized := outline m;
                           maxOutputTokens := 2048 |})
              (fun _ => Returned "<div>Hi World</div>")
              {| rawUrl := "https://example.com" |})
    as (r & calls & _ & Hclone & _ & Hrender & _).
  rewrite Hclone. simpl.
  exact (Hrender _ _ eq_refl eq_refl).
Defined.

(** The two end-to-end scenarios of the design: a provider that answers
    with markup, and one that answers with plain text. *)
Example end_to_end_success :
  clone 6 4096 outline
        (fun _ => Returned hi_world)
        (fun m => {| systemInstructions := "Rebuild this page";
                     pageModelSerialized := outline m;
                     maxOutputTokens := 2048 |})
        (fun _ => Returned "<div>Hi World</div>")
        {| rawUrl := "https://example.com" |}
  = (Success {| html := "<div>Hi World</div>" |},
     [RenderCall {| scheme := "https"; host := "example.com";
                    path := ""; query := "" |};
      GenerateCall
        {| systemInstructions := "Rebuild this page";
           pageModelSerialized :=
             "(container(container(heading Hi)(paragraph World)))";
           maxOutputTokens := 2048 |}]).
Proof. reflexivity. Qed.

Example end_to_end_malformed :
  fst (clone 6 4096 outline
         (fun _ => Returned hi_world)
         (fun m => {| systemInstructions := "Rebuild this page";
                      pageModelSerialized := outline m;
                      maxOutputTokens := 2048 |})
         (fun _ => Returned "ERROR: cannot comply")
         {| rawUrl := "https://example.com" |})
  = Failure MalformedOutput
      "Provider output is not markup: ERROR: cannot comply".
Proof. reflexivity. Qed.

(** ** C7: extraction *)

Module ExtractFacts.

Lemma retain_block_kept (k : BlockKind) (t : option string)
  (a : list (string * string)) (kids : list Block)
  (q : nat) (deeper : list nat) :
  retain_block (Blk k t a kids) (S q :: deeper)
  = (Some (Blk k t a (fst (retain_forest kids deeper))),
     q :: snd (retain_forest kids deeper)).
Proof.
  cbn [retain_block].
  change ((fix go (l : list Block) (st : list nat) {struct l}
             : list Block * list nat :=
             match l with
             | [] => ([], st)
             | c :: cs =>
                 let '(oc, st1) := retain_block c st in
                 let '(rest, st2) := go cs st1 in
                 (match oc with
                  | Some c' => c' :: rest
                  | None => rest
                  end, st2)
             end) kids deeper)
    with (retain_forest kids deeper).
  now destruct (retain_forest kids deeper).
Qed.

Lemma widths_length (d : nat) :
  forall f, length (widths d f) = d.
Proof. induction d as [|d IH]; intro f; simpl; [|rewrite IH]; reflexivity. Qed.

Lemma quotas_length (ws : list nat) :
  forall n, length (quotas n ws) = length ws.
Proof.
  induction ws as [|w ws IH]; intro n; simpl; [|rewrite IH]; reflexivity.
Qed.

Lemma retain_forest_bounded (l : list Block) :
  Forall bounded l ->
  forall st,
    length (snd (retain_forest l st)) = length st
    /\ forest_depth (fst (retain_forest l st)) <= length st.
Proof.
  induction 1 as [|c cs Hc _ IH]; intro st; simpl.
  - split; [reflexivity|lia].
  - destruct (Hc st) as [Hlen Hdepth].
    destruct (retain_block c st) as [oc st1]. simpl in Hlen, Hdepth.
    destruct (IH st1) as [Hlen' Hdepth'].
    destruct (retain_forest cs st1) as [rest st2].
    simpl in Hlen', Hdepth' |- *.
    split; [congruence|].
    unfold forest_depth in *.
    destruct oc as [c'|]; simpl; [|lia].
    specialize (Hdepth c' eq_refl). lia.
Qed.

Lemma retain_block_bounded (b : Block) : bounded b.
Proof.
  induction b as [k t a kids IH] using Block_ind_kids.
  intros [|[|q] deeper].
  - simpl. split; [reflexivity|discriminate].
  - simpl. split; [reflexivity|discriminate].
  - rewrite retain_block_kept.
    destruct (retain_forest_bounded kids IH deeper) as [Hlen Hdepth].
    simpl. split; [now rewrite Hlen|].
    intros b' Hb'. injection Hb' as <-. simpl.
    unfold forest_depth in Hdepth. lia.
Qed.

Lemma keep_depth (max_depth n : nat) (f : PageModel) :
  forest_depth (keep max_depth n f) <= max_depth.
Proof.
  unfold keep.
  pose proof (retain_forest_bounded f) as H.
  assert (Hall : Forall bounded f)
    by (apply Forall_forall; intros; apply retain_block_bounded).
  destruct (H Hall (quotas n (widths max_depth f))) as [_ Hd].
  now rewrite quotas_length, widths_length in Hd.
Qed.

Lemma truncate_depth (max_depth max_bytes : nat)
  (serialize : PageModel -> string) (f : PageModel) :
  forest_depth (truncate max_depth max_bytes serialize f) <= max_depth.
Proof.
  unfold truncate.
  destruct (find _ _) as [n|]; [apply keep_depth|simpl; lia].
Qed.

Lemma truncate_size (max_depth max_bytes : nat)
  (serialize : PageModel -> string) (f : PageModel) :
  String.length (serialize []) <= max_bytes ->
  String.length (serialize (truncate max_depth max_bytes serialize f))
  <= max_bytes.
Proof.
  intro Hempty. unfold truncate.
  destruct (find _ _) as [n|] eqn:Hfind; [|exact Hempty].
  apply find_some in Hfind. destruct Hfind as [_ Hfits].
  unfold fits in Hfits. now apply Nat.leb_le in Hfits.
Qed.

End ExtractFacts.

(** C7: extraction is a function of the snapshot alone, so extracting a
    rendered page twice, or two pages with the same snapshot, gives the
    same PageModel with the same serialization; and, provided the empty
    model fits the byte ceiling, the PageModel of every page, however
    large its snapshot, is at most [max_depth] deep and serializes to at
    most [max_bytes] bytes. *)
Theorem extraction_deterministic_and_bounded
  (max_depth max_bytes : nat) (serialize : PageModel -> string)
  (p q : RenderedPage) :
  String.length (serialize []) <= max_bytes ->
  htmlSnapshot p = htmlSnapshot q ->
  extract max_depth max_bytes serialize p
  = extract max_depth max_bytes serialize q
  /\ serialize (extract max_depth max_bytes serialize p)
     = serialize (extract max_depth max_bytes serialize q)
  /\ forest_depth (extract max_depth max_bytes serialize p) <= max_depth
  /\ String.length (serialize (extract max_depth max_bytes serialize p))
     <= max_bytes.
Proof.
  intros Hempty Hsame.
  assert (E : extract max_depth max_bytes serialize p
              = extract max_depth max_bytes serialize q)
    by (unfold extract; now rewrite Hsame).
  split; [exact E|]. split; [now rewrite E|].
  split.
  - apply ExtractFacts.truncate_depth.
  - now apply ExtractFacts.truncate_size.
Qed.

Lemma extraction_deterministic_and_bounded_witness :
  String.length (outline []) <= 40
  /\ 40 < String.length
            (outline (flat_map classify_node (htmlSnapshot hi_world)))
  /\ forest_depth (extract 2 40 outline hi_world) <= 2
  /\ String.length (outline (extract 2 40 outline hi_world)) <= 40.
Proof.
  split; [apply Nat.leb_le; reflexivity|].
  split; [apply Nat.ltb_lt; reflexivity|].
  refine (proj2 (proj2
    (extraction_deterministic_and_bounded 2 40 outline hi_world hi_world
       _ eq_refl))).
  apply Nat.leb_le. reflexivity.
Defined.

(** * Further properties of the client page *)

Module HistoryFacts.

Lemma app_commit (w : World) : app (commit w) = app w.
Proof. reflexivity. Qed.

(** What one event does to the input text, the commit count and the
    requests sent. *)
Lemma step_url (ev : Event) (w w' : World) :
  step ev w = Some w' ->
  url (app w') = match ev with Typed v => v | _ => url (app w) end.
Proof.
  intro H. destruct ev as [|f|v| |f]; unfold step in H.
  - now injection H as <-.
  - destruct (health_inflight w); [discriminate|]. injection H as <-.
    rewrite app_commit. cbn [app].
    now destruct (LifecycleFacts.health_fields f (app w)) as (_ & _ & _ & E).
  - destruct (input_disabled _); [discriminate|]. now injection H as <-.
  - destruct (button_disabled _); [discriminate|].
    unfold handleSubmit_begin in H. now injection H as <-.
  - destruct (clone_inflight w); [discriminate|]. injection H as <-.
    rewrite app_commit. cbn [app].
    now destruct (LifecycleFacts.settle_fields f (app w)) as (_ & _ & E & _).
Qed.

Lemma step_sent (ev : Event) (w w' : World) :
  commits w <> 0 -> step ev w = Some w' ->
  commits w' <> 0
  /\ sent w' = if is_submit ev then clone_request (app w) :: sent w
               else sent w.
Proof.
  intros Hc H. destruct ev as [|f|v| |f]; unfold step in H.
  - injection H as <-. rewrite LifecycleFacts.commit_settled by exact Hc.
    simpl. auto.
  - destruct (health_inflight w); [discriminate|]. injection H as <-.
    rewrite LifecycleFacts.commit_settled by exact Hc. simpl. auto.
  - destruct (input_disabled _); [discriminate|]. injection H as <-.
    rewrite LifecycleFacts.commit_settled by exact Hc. simpl. auto.
  - destruct (button_disabled _); [discriminate|].
    unfold handleSubmit_begin in H. injection H as <-.
    rewrite LifecycleFacts.commit_settled by exact Hc. simpl. auto.
  - destruct (clone_inflight w); [discriminate|]. injection H as <-.
    rewrite LifecycleFacts.commit_settled by exact Hc. simpl. auto.
Qed.

Lemma run_url (evs : list Event) :
  forall w w', run evs w = Some w' ->
               url (app w') = last_typed evs (url (app w)).
Proof.
  induction evs as [|ev evs IH]; intros w w' H; simpl in H.
  - now injection H as <-.
  - destruct (step ev w) as [w1|] eqn:Hs; [|discriminate].
    rewrite (IH w1 w' H), (step_url ev w w1 Hs).
    unfold last_typed. simpl. now destruct ev.
Qed.

Lemma run_sent (evs : list Event) :
  forall w w',
    commits w <> 0 -> run evs w = Some w' ->
    length (sent w') = length (sent w) + submits evs
    /\ length (filter is_clone (sent w'))
       = length (filter is_clone (sent w)) + submits evs.
Proof.
  induction evs as [|ev evs IH]; intros w w' Hc H; simpl in H.
  - injection H as <-. unfold submits. simpl. lia.
  - destruct (step ev w) as [w1|] eqn:Hs; [|discriminate].
    destruct (step_sent ev w w1 Hc Hs) as [Hc1 E].
    destruct (IH w1 w' Hc1 H) as [L1 L2]. rewrite L1, L2, E.
    unfold submits. simpl. destruct (is_submit ev); simpl; lia.
Qed.

Lemma gate_mount : Gate mount.
Proof. left. repeat split. Qed.

Lemma gate_step (ev : Event) (w w' : World) :
  commits w <> 0 -> Gate w -> step ev w = Some w' -> Gate w'.
Proof.
  intros Hc G H.
  assert (Hblocked :
            backendStatus (app w) = JStr "checking..." ->
            input_disabled (render (app w)) = true
            /\ button_disabled (render (app w)) = true).
  { intro E. apply LifecycleFacts.controls_disabled. right.
    rewrite E. discriminate. }
  destruct ev as [|f|v| |f]; unfold step in H.
  - injection H as <-. rewrite LifecycleFacts.commit_settled by exact Hc.
    exact G.
  - destruct (health_inflight w) as [|n] eqn:Hn; [discriminate|].
    injection H as <-. rewrite LifecycleFacts.commit_settled by exact Hc.
    destruct G as [(Hh & _ & _ & Hs)|(Hh & _)]; [|congruence].
    right. simpl. split; [lia|]. now right.
  - destruct (input_disabled (render (app w))) eqn:Hd; [discriminate|].
    injection H as <-. rewrite LifecycleFacts.commit_settled by exact Hc.
    destruct G as [(_ & _ & Hs & _)|G].
    + destruct (Hblocked Hs) as [Hi _]. congruence.
    + right. exact G.
  - destruct (button_disabled (render (app w))) eqn:Hd; [discriminate|].
    destruct (LifecycleFacts.button_enabled (app w) Hd) as [_ Hs].
    unfold handleSubmit_begin in H. injection H as <-.
    rewrite LifecycleFacts.commit_settled by exact Hc.
    destruct G as [(_ & _ & Hs' & _)|(Hh & _)]; [congruence|].
    right. simpl. split; [exact Hh|]. now left.
  - destruct (clone_inflight w) as [|n] eqn:Hn; [discriminate|].
    injection H as <-. rewrite LifecycleFacts.commit_settled by exact Hc.
    destruct G as [(_ & Hz & _)|(Hh & G)]; [congruence|].
    right. cbn [app health_inflight sent]. split; [exact Hh|].
    destruct (LifecycleFacts.settle_fields f (app w)) as (_ & E & _).
    now rewrite E.
Qed.

Lemma gate_run (evs : list Event) :
  forall w w', Inv w -> Gate w -> run evs w = Some w' -> Gate w'.
Proof.
  induction evs as [|ev evs IH]; intros w w' Hi G H; simpl in H.
  - now injection H as <-.
  - destruct (step ev w) as [w1|] eqn:Hs; [|discriminate].
    exact (IH w1 w' (LifecycleFacts.inv_step ev w w1 Hi Hs)
              (gate_step ev w w1 (inv_commits w Hi) G Hs) H).
Qed.



End HistoryFacts.

(** ** Ways a submission can end *)

(** X1: when the clone request is rejected before any response arrives
    (network failure), the page shows the rejection's message, or "An
    unexpected error occurred during cloning." when that message is
    empty; no preview is shown, loading ends and the input text stays. *)
Theorem rejected_fetch_shows_message (m : string) (s : State) :
  error_message (render (handleSubmit (Rejected m) s))
  = Some (if m =? "" then "An unexpected error occurred during cloning."
          else m)
  /\ preview (render (handleSubmit (Rejected m) s)) = None
  /\ loading (handleSubmit (Rejected m) s) = false
  /\ url (handleSubmit (Rejected m) s) = url s.
Proof.
  rewrite (AppFacts.handleSubmit_throw s (Rejected m) (mkExn m) eq_refl).
  unfold render, str_or; simpl.
  destruct (m =? "") eqn:E; simpl; [auto|].
  rewrite E. auto.
Qed.



(** X3: a 2xx response whose body cannot be read as a JSON value with
    fields (not JSON at all, or the JSON value null) is reported as an
    error: a non-empty message is shown, no preview, and for a body that
    is not JSON the message is the parser's. *)
Theorem ok_with_unreadable_body_is_error (s : State) (r : Response) :
  ok r = true ->
  (forall d, body r = Json d -> d = JNull) ->
  preview (render (handleSubmit (Resolved r) s)) = None
  /\ (exists m,
        m <> ""
        /\ error_message (render (handleSubmit (Resolved r) s)) = Some m)
  /\ (forall m,
        body r = NotJson m -> m <> "" ->
        error_message (render (handleSubmit (Resolved r) s)) = Some m).
Proof.
  intros Hok Hbody.
  assert (Hthrow : exists e, handleSubmit_try (Resolved r) = Throw e
                             /\ forall m, body r = NotJson m -> e = mkExn m).
  { unfold handleSubmit_try, json. simpl. rewrite Hok. simpl.
    destruct (body r) as [d|m] eqn:Hb.
    - rewrite (Hbody d eq_refl). simpl. eexists. split; [reflexivity|].
      discriminate.
    - simpl. eexists. split; [reflexivity|]. now intros m' [= <-]. }
  destruct Hthrow as (e & He & Hm).
  rewrite (AppFacts.handleSubmit_throw s _ e He).
  assert (Hne : str_or (message e)
                  "An unexpected error occurred during cloning." <> "")
    by (apply AppFacts.str_or_nonempty; discriminate).
  assert (Hshown : forall st : State,
             error st = Some (str_or (message e)
                        "An unexpected error occurred during cloning.") ->
             error_message (render st)
             = Some (str_or (message e)
                       "An unexpected error occurred during cloning."))
    by (intros st Hst; now apply AppFacts.error_message_shown).
  split; [reflexivity|]. split.
  - eexists. split; [exact Hne|]. now apply Hshown.
  - intros m Hb Hnm. rewrite Hshown by reflexivity.
    rewrite (Hm m Hb). simpl. unfold str_or.
    now rewrite (AppFacts.str_nonempty m Hnm).
Qed.

Lemma ok_with_unreadable_body_is_error_witness :
  error_message (render (handleSubmit
    (Resolved {| status := 204;
                 body := NotJson "Unexpected end of JSON input" |})
    initial)) = Some "Unexpected end of JSON input".
Proof.
  refine (proj2 (proj2
    (ok_with_unreadable_body_is_error initial
       {| status := 204; body := NotJson "Unexpected end of JSON input" |}
       eq_refl _)) _ eq_refl _).
  - intros d H. discriminate H.
  - discriminate.
Defined.



(** ** How the handlers compose *)

(** X5: the health check and a submission write different cells, so the
    order in which their promises settle does not matter: settling the
    health check before or after the clone request settles, or before or
    after a submission begins, gives the same state, and the request a
    submission issues does not depend on the health result. *)
Theorem settling_order_is_irrelevant (f g : FetchResult) (s : State) :
  checkBackendHealth f (handleSubmit_settle g s)
  = handleSubmit_settle g (checkBackendHealth f s)
  /\ checkBackendHealth f (fst (handleSubmit_begin s))
     = fst (handleSubmit_begin (checkBackendHealth f s))
  /\ snd (handleSubmit_begin (checkBackendHealth f s))
     = snd (handleSubmit_begin s).
Proof.
  unfold checkBackendHealth, handleSubmit_settle, handleSubmit_begin,
    clone_request.
  destruct (checkBackendHealth_try f); destruct (handleSubmit_try g);
    repeat split; reflexivity.
Qed.

(** X6: what a completed submission leaves behind depends only on how
    its own request settled and on the input text and backend status,
    which it does not touch: an earlier submission, whatever its outcome,
    leaves no trace. *)
Theorem submission_forgets_history (f g : FetchResult) (s : State) :
  handleSubmit f (handleSubmit g s) = handleSubmit f s
  /\ url (handleSubmit f s) = url s
  /\ backendStatus (handleSubmit f s) = backendStatus s.
Proof.
  unfold handleSubmit, handleSubmit_settle, handleSubmit_begin.
  destruct (handleSubmit_try f); destruct (handleSubmit_try g);
    repeat split; reflexivity.
Qed.

(** ** What holds along every run *)

(** X7: along every run the input box shows the text of the last typing
    event (empty before any), since no handler writes [url]; and a
    submission sends exactly that text. *)
Theorem input_text_is_last_typed (evs : list Event) (w : World) :
  run evs mount = Some w ->
  input_value (render (app w)) = last_typed evs ""
  /\ forall w',
       step Submit w = Some w' ->
       sent w'
       = {| method := "POST"; target := "http://localhost:8000/clone";
            headers := [("Content-Type", "application/json")];
            payload := Some (JObj [("url", JStr (last_typed evs ""))]) |}
         :: sent w.
Proof.
  intro Hrun.
  pose proof (HistoryFacts.run_url evs mount w Hrun) as Hurl.
  change (url (app mount)) with "" in Hurl.
  split; [exact Hurl|].
  intros w' Hstep.
  pose proof (LifecycleFacts.reachable_inv evs w Hrun) as Hinv.
  destruct (HistoryFacts.step_sent Submit w w' (inv_commits w Hinv) Hstep)
    as [_ E].
  rewrite E. simpl. unfold clone_request. now rewrite Hurl.
Qed.

Lemma input_text_is_last_typed_witness :
  exists w,
    run [HealthSettles
           (Resolved {| status := 200;
                        body := Json (JObj [("status", JStr "healthy")]) |});
         Typed "https://exam"; Typed "https://example.com";
         Submit; CloneSettles (Rejected "Failed to fetch")] mount = Some w
    /\ input_value (render (app w)) = "https://example.com".
Proof.
  pose (evs := [HealthSettles
                  (Resolved {| status := 200;
                               body := Json (JObj [("status",
                                                    JStr "healthy")]) |});
                Typed "https://exam"; Typed "https://example.com";
                Submit; CloneSettles (Rejected "Failed to fetch")]).
  let r := eval vm_compute in (run evs mount) in
  lazymatch r with
  | Some ?w =>
      exists w;
      assert (Hrun : run evs mount = Some w) by (vm_compute; reflexivity)
  end.
  split; [exact Hrun|].
  exact (proj1 (input_text_is_last_typed evs _ Hrun)).
Defined.

(** X8: the page never sends a clone request to a backend that has not
    answered its health check with exactly "healthy": in every run, once
    a clone request has been sent, the health check has settled and
    [backendStatus] is "healthy". *)
Theorem clone_only_after_healthy
  (evs : list Event) (w : World) (rq : Request) :
  run evs mount = Some w ->
  In rq (sent w) ->
  target rq = "http://localhost:8000/clone" ->
  backendStatus (app w) = JStr "healthy" /\ health_inflight w = 0.
Proof.
  intros Hrun Hin Htarget.
  pose proof (HistoryFacts.gate_run evs mount w LifecycleFacts.inv_mount
                HistoryFacts.gate_mount Hrun) as G.
  assert (Hmore : sent w <> [health_request]).
  { intro E. rewrite E in Hin. destruct Hin as [<-|[]].
    discriminate Htarget. }
  destruct G as [(_ & _ & _ & Hs)|(Hh & [Hs|Hs])]; try contradiction.
  now split.
Qed.

Lemma clone_only_after_healthy_witness :
  exists w,
    run [HealthSettles
           (Resolved {| status := 200;
                        body := Json (JObj [("status", JStr "healthy")]) |});
         Typed "https://example.com"; Submit] mount = Some w
    /\ backendStatus (app w) = JStr "healthy".
Proof.
  pose (evs := [HealthSettles
                  (Resolved {| status := 200;
                               body := Json (JObj [("status",
                                                    JStr "healthy")]) |});
                Typed "https://example.com"; Submit]).
  let r := eval vm_compute in (run evs mount) in
  lazymatch r with
  | Some ?w =>
      exists w;
      assert (Hrun : run evs mount = Some w) by (vm_compute; reflexivity)
  end.
  split; [exact Hrun|].
  refine (proj1
    (clone_only_after_healthy evs _
       (clone_request (setUrl "https://example.com" initial))
       Hrun _ eq_refl)).
  left. vm_compute. reflexivity.
Defined.

(** X9: each submission issues exactly one request and nothing is ever
    retried: in every run the number of clone requests sent is the
    number of submissions, and with the health check the page has sent
    one request more than that. *)
Theorem one_request_per_submit (evs : list Event) (w : World) :
  run evs mount = Some w ->
  length (filter is_clone (sent w)) = submits evs
  /\ length (sent w) = S (submits evs).
Proof.
  intro Hrun.
  destruct (HistoryFacts.run_sent evs mount w
              (inv_commits mount LifecycleFacts.inv_mount) Hrun) as [L1 L2].
  split; [exact L2|exact L1].
Qed.

Lemma one_request_per_submit_witness :
  exists w,
    run [HealthSettles
           (Resolved {| status := 200;
                        body := Json (JObj [("status", JStr "healthy")]) |});
         Submit; CloneSettles (Rejected "Failed to fetch");
         Rerender; Submit] mount = Some w
    /\ length (filter is_clone (sent w)) = 2.
Proof.
  pose (evs := [HealthSettles
                  (Resolved {| status := 200;
                               body := Json (JObj [("status",
                                                    JStr "healthy")]) |});
                Submit; CloneSettles (Rejected "Failed to fetch");
                Rerender; Submit]).
  let r := eval vm_compute in (run evs mount) in
  lazymatch r with
  | Some ?w =>
      exists w;
      assert (Hrun : run evs mount = Some w) by (vm_compute; reflexivity)
  end.
  split; [exact Hrun|].
  exact (proj1 (one_request_per_submit evs _ Hrun)).
Defined.

(** X10: in every run the button shows its spinner exactly while a clone
    request is in flight, at most one request is in flight, and while the
    spinner is shown neither an error message nor a preview is on
    screen. *)
Theorem spinner_iff_in_flight (evs : list Event) (w : World) :
  run evs mount = Some w ->
  (spinner (render (app w)) = true <-> clone_inflight w = 1)
  /\ clone_inflight w <= 1
  /\ (spinner (render (app w)) = true ->
      error_message (render (app w)) = None
      /\ preview (render (app w)) = None).
Proof.
  intro Hrun.
  pose proof (LifecycleFacts.reachable_inv evs w Hrun) as Hinv.
  unfold render; simpl.
  destruct (loading (app w)) eqn:Hl.
  - destruct (inv_busy w Hinv Hl) as (Hone & Hh & He).
    rewrite Hone, Hh, He. simpl. repeat split; auto.
  - rewrite (inv_idle w Hinv Hl).
    repeat split; try discriminate; auto.
Qed.

Lemma spinner_iff_in_flight_witness :
  exists w,
    run [HealthSettles
           (Resolved {| status := 200;
                        body := Json (JObj [("status", JStr "healthy")]) |});
         Submit; Rerender] mount = Some w
    /\ spinner (render (app w)) = true
    /\ clone_inflight w = 1.
Proof.
  pose (evs := [HealthSettles
                  (Resolved {| status := 200;
                               body := Json (JObj [("status",
                                                    JStr "healthy")]) |});
                Submit; Rerender]).
  let r := eval vm_compute in (run evs mount) in
  lazymatch r with
  | Some ?w =>
      exists w;
      assert (Hrun : run evs mount = Some w) by (vm_compute; reflexivity)
  end.
  split; [exact Hrun|]. split; [reflexivity|].
  exact (proj1 (proj1 (spinner_iff_in_flight evs _ Hrun)) eq_refl).
Defined.

(** X11: only a submission and the settling of its request change which
    error message and which preview are on screen: a re-render, typing
    in the input, or the health check settling leave both as they were,
    so an old error stays visible while the URL is being edited. *)
Theorem messages_change_only_on_submit (ev : Event) (w w' : World) :
  step ev w = Some w' ->
  is_submit ev = false ->
  (forall f, ev <> CloneSettles f) ->
  error_message (render (app w')) = error_message (render (app w))
  /\ preview (render (app w')) = preview (render (app w)).
Proof.
  intros H Hs Hc. destruct ev as [|f|v| |f]; unfold step in H.
  - injection H as <-. auto.
  - destruct (health_inflight w); [discriminate|]. injection H as <-.
    rewrite HistoryFacts.app_commit. cbn [app].
    destruct (LifecycleFacts.health_fields f (app w)) as (_ & Hh & He & _).
    unfold render; simpl. rewrite Hh, He. auto.
  - destruct (input_disabled _); [discriminate|]. injection H as <-. auto.
  - discriminate Hs.
  - elim (Hc f eq_refl).
Qed.

Lemma messages_change_only_on_submit_witness :
  exists w w',
    run [HealthSettles
           (Resolved {| status := 200;
                        body := Json (JObj [("status", JStr "healthy")]) |});
         Submit; CloneSettles (Rejected "Failed to fetch")] mount = Some w
    /\ step (Typed "https://example.org") w = Some w'
    /\ error_message (render (app w')) = Some "Failed to fetch".
Proof.
  pose (evs := [HealthSettles
                  (Resolved {| status := 200;
                               body := Json (JObj [("status",
                                                    JStr "healthy")]) |});
                Submit; CloneSettles (Rejected "Failed to fetch")]).
  let r := eval vm_compute in (run evs mount) in
  lazymatch r with
  | Some ?w =>
      let r' := eval vm_compute in (step (Typed "https://example.org") w) in
      lazymatch r' with
      | Some ?w' =>
          exists w, w';
          assert (Hrun : run evs mount = Some w)
            by (vm_compute; reflexivity);
          assert (Hstep : step (Typed "https://example.org") w = Some w')
            by (vm_compute; reflexivity);
          pose proof (messages_change_only_on_submit
                        (Typed "https://example.org") w w' Hstep eq_refl)
            as Hkeep
      end
  end.
  split; [exact Hrun|]. split; [exact Hstep|].
  rewrite (proj1 (Hkeep ltac:(intros f H; discriminate H))).
  reflexivity.
Defined.

(** ** The health display *)

(** X12: a 2xx health response that cannot be read counts as
    unreachable, and one without a [status] field leaves the page
    unusable: a body that is not JSON, or the JSON value null, displays
    "unreachable"; a JSON object without [status] stores [undefined],
    which is styled as unreachable and keeps both controls disabled. *)
Theorem health_body_edge_cases (r : Response) (s : State) :
  ok r = true ->
  (forall m, body r = NotJson m ->
     status_text (render (checkBackendHealth (Resolved r) s))
     = JStr "unreachable")
  /\ (body r = Json JNull ->
      status_text (render (checkBackendHealth (Resolved r) s))
      = JStr "unreachable")
  /\ (forall props,
        body r = Json (JObj props) -> lookup "status" props = None ->
        status_text (render (checkBackendHealth (Resolved r) s)) = JUndefined
        /\ status_class (render (checkBackendHealth (Resolved r) s))
           = "status-unreachable"
        /\ input_disabled (render (checkBackendHealth (Resolved r) s)) = true
        /\ button_disabled (render (checkBackendHealth (Resolved r) s))
           = true).
Proof.
  intro Hok.
  unfold checkBackendHealth, checkBackendHealth_try, json. simpl.
  rewrite Hok. simpl.
  split; [|split].
  - intros m Hb. rewrite Hb. reflexivity.
  - intros Hb. rewrite Hb. reflexivity.
  - intros props Hb Hl. rewrite Hb. simpl. rewrite Hl. simpl.
    unfold render; simpl. rewrite !orb_true_r. auto.
Qed.

Lemma health_body_edge_cases_witness :
  status_text (render (checkBackendHealth
    (Resolved {| status := 200; body := Json (JObj [("state", JStr "ok")]) |})
    initial)) = JUndefined
  /\ input_disabled (render (checkBackendHealth
       (Resolved {| status := 200;
                    body := Json (JObj [("state", JStr "ok")]) |})
       initial)) = true.
Proof.
  destruct (proj2 (proj2
    (health_body_edge_cases
       {| status := 200; body := Json (JObj [("state", JStr "ok")]) |}
       initial eq_refl)) _ eq_refl eq_refl) as (H1 & _ & H2 & _).
  split; [exact H1|exact H2].
Defined.

(** X13: the status is styled as healthy exactly when it is the string
    "healthy", as unhealthy exactly when it is "unhealthy", and as
    unreachable in every other case ("degraded" and "checking..."
    included); and a control is enabled exactly when the page is not
    loading and the status is styled as healthy. *)
Theorem status_style_matches_controls (s : State) :
  (status_class (render s) = "status-healthy"
   <-> backendStatus s = JStr "healthy")
  /\ (status_class (render s) = "status-unhealthy"
      <-> backendStatus s = JStr "unhealthy")
  /\ (status_class (render s) = "status-unreachable"
      <-> backendStatus s <> JStr "healthy"
          /\ backendStatus s <> JStr "unhealthy")
  /\ (input_disabled (render s) = false
      <-> loading s = false /\ status_class (render s) = "status-healthy")
  /\ button_disabled (render s) = input_disabled (render s).
Proof.
  assert (Heq : forall a b, strict_eq_str a b = true <-> a = JStr b).
  { intros a b. destruct a; simpl; split; intro H; try discriminate.
    - apply String.eqb_eq in H. now subst.
    - injection H as ->. apply String.eqb_refl. }
  assert (Hor : forall b, b || true = true) by (intros []; reflexivity).
  unfold render; simpl.
  destruct (strict_eq_str (backendStatus s) "healthy") eqn:E1;
    [|destruct (strict_eq_str (backendStatus s) "unhealthy") eqn:E2].
  - pose proof (proj1 (Heq _ _) E1) as E. rewrite E.
    destruct (loading s); simpl;
      repeat split; intros;
      repeat match goal with H : _ /\ _ |- _ => destruct H end;
      try reflexivity; try discriminate; try congruence.
  - pose proof (proj1 (Heq _ _) E2) as E. rewrite E. simpl.
    rewrite Hor.
    repeat split; intros;
      repeat match goal with H : _ /\ _ |- _ => destruct H end;
      try reflexivity; try discriminate; try congruence.
  - assert (N1 : backendStatus s <> JStr "healthy")
      by (intro A; apply Heq in A; congruence).
    assert (N2 : backendStatus s <> JStr "unhealthy")
      by (intro A; apply Heq in A; congruence).
    simpl. rewrite Hor.
    repeat split; intros;
      repeat match goal with H : _ /\ _ |- _ => destruct H end;
      try reflexivity; try discriminate; try congruence; try assumption.
Qed.
